(** * reservoir-sync-node: the sync orchestrator, its write path and its
      request helpers

    A shallow embedding of [src/utils/utils.ts] and
    [src/services/SyncService.ts], with the properties of the
    specification that concern them.

    Conventions of the embedding.
    - JavaScript strings are [string]s; [Buffer]s are lists of bytes.
    - Integral JavaScript numbers are [Z]; fractional values that the code
      only copies are [Q].
    - [undefined]/[null] is [None] of an [option].
    - A call that may throw returns a [Js.Completion]; a method of the
      service is a function from the state before the call to a completion
      and the state after it.
    - Objects that the code shares by reference (the managers) live in an
      object store and are named by their address.
    - Calls to collaborators that are not part of these files (the
      checkpoint service, the insertion service) are appended to a log of
      effects in call order.
    - The clock ([new Date()]) is an argument [now] of the functions that
      read it; the outcome of the HTTP call and of the managers' run loops
      are arguments too.
    - The method tables and the pages are object literals, read by name.
      A name that every object inherits from [Object.prototype]
      ([Js.inherited]: [toString], [constructor], ...) finds the inherited
      member there, which the embedding does not represent: the tables
      below answer for the other names, and the properties that range over
      the names of types and chains leave the inherited ones out. *)

From Stdlib Require Import ZArith QArith Lia String Ascii.
From Stdlib Require Import DecimalString DecimalPos DecimalZ.
From stdpp Require Import base list strings gmap.

Local Open Scope string_scope.
Local Open Scope Z_scope.

(** ** JavaScript values and control *)

Module Js.

Inductive Error :=
| TypeError (msg : string)
| RangeError (msg : string).

(** How the evaluation of a call ends. *)
Inductive Completion (A : Type) :=
| Normal (a : A)
| Throw (e : Error).
Arguments Normal {A} a.
Arguments Throw {A} e.

(** [`${n}`] and [String(n)] for an integral number. *)
Definition Z_toString (n : Z) : string := NilZero.string_of_int (Z.to_int n).

(** [`${s}`] for a possibly undefined string. *)
Definition template (s : option string) : string :=
  match s with
  | Some s => s
  | None => "undefined"
  end.

(** [s.toLowerCase()], on the ASCII letters. *)
Definition lower_ascii (c : ascii) : ascii :=
  let n := nat_of_ascii c in
  if ((65 <=? n) && (n <=? 90))%nat then ascii_of_nat (n + 32) else c.

Fixpoint toLowerCase (s : string) : string :=
  match s with
  | EmptyString => EmptyString
  | String c s' => String (lower_ascii c) (toLowerCase s')
  end.

(** [s.slice(n)] for [0 <= n]. *)
Fixpoint slice (n : nat) (s : string) : string :=
  match n, s with
  | O, _ => s
  | S n', String _ s' => slice n' s'
  | S _, EmptyString => EmptyString
  end.

(** [s.padStart(n, '0')]. *)
Fixpoint zeros (n : nat) : string :=
  match n with
  | O => EmptyString
  | S n' => String "0" (zeros n')
  end.

Definition padStart0 (n : nat) (s : string) : string :=
  zeros (n - String.length s) ++ s.

(** [xs.includes(x)] on strings. *)
Definition includes (xs : list string) (x : string) : bool :=
  existsb (String.eqb x) xs.

(** The string-named members of [Object.prototype]: a lookup
    [literal[name]] in an object literal that has no own property of one
    of these names finds the inherited member, not [undefined]. *)
Definition Object_prototype_names : list string :=
  [ "constructor"; "__defineGetter__"; "__defineSetter__"; "hasOwnProperty";
    "__lookupGetter__"; "__lookupSetter__"; "isPrototypeOf";
    "propertyIsEnumerable"; "toString"; "valueOf"; "__proto__";
    "toLocaleString" ].

Definition inherited (name : string) : bool :=
  includes Object_prototype_names name.

(** *** Buffers *)

Definition Buffer := list Byte.byte.

(** [Buffer.from(s)]: the bytes of the string. *)
Definition Buffer_from (s : string) : Buffer :=
  map byte_of_ascii (list_ascii_of_string s).

Definition hex_digit (c : ascii) : option N :=
  let n := N_of_ascii c in
  if ((48 <=? n) && (n <=? 57))%N then Some (n - 48)%N
  else if ((97 <=? n) && (n <=? 102))%N then Some (n - 87)%N
  else if ((65 <=? n) && (n <=? 70))%N then Some (n - 55)%N
  else None.

(** [Buffer.from(s, 'hex')]: pairs of hexadecimal digits, up to the first
    pair that is not one; a trailing single digit is dropped. *)
Fixpoint Buffer_from_hex (s : string) : Buffer :=
  match s with
  | String a (String b rest) =>
      match hex_digit a, hex_digit b with
      | Some x, Some y =>
          byte_of_ascii (ascii_of_N (16 * x + y)) :: Buffer_from_hex rest
      | _, _ => []
      end
  | _ => []
  end.

End Js.

Import Js.

(** ** The date library

    The program handles dates through date-fns.  A [Date] is modelled by
    its local wall-clock reading (the process runs with a fixed offset to
    UTC); the invalid date is [None].  Months count from 1, as in the
    formatted strings. *)

Module DateFns.

Record DateTime := mkDateTime {
  year : Z;
  month : Z;
  day : Z;
  millis : Z      (* milliseconds since local midnight *)
}.

Definition JsDate := option DateTime.

Definition isValid (d : JsDate) : bool :=
  match d with Some _ => true | None => false end.

(** *** Calendar arithmetic *)

Definition isLeapYear (y : Z) : bool :=
  ((y mod 4 =? 0) && negb (y mod 100 =? 0)) || (y mod 400 =? 0).

Definition getDaysInMonth (y m : Z) : Z :=
  if m =? 2 then (if isLeapYear y then 29 else 28)
  else if (m =? 4) || (m =? 6) || (m =? 9) || (m =? 11) then 30
  else 31.

(** Days between 1970-01-01 and the given civil date. *)
Definition days_from_civil (y m d : Z) : Z :=
  let y' := if m <=? 2 then y - 1 else y in
  let era := y' / 400 in
  let yoe := y' - era * 400 in
  let mp := (m + 9) mod 12 in
  let doy := (153 * mp + 2) / 5 + d - 1 in
  let doe := yoe * 365 + yoe / 4 - yoe / 100 + doy in
  era * 146097 + doe - 719468.

(** The civil date that many days after 1970-01-01. *)
Definition civil_from_days (z : Z) : Z * Z * Z :=
  let z' := z + 719468 in
  let era := z' / 146097 in
  let doe := z' - era * 146097 in
  let yoe := (doe - doe / 1460 + doe / 36524 - doe / 146096) / 365 in
  let doy := doe - (365 * yoe + yoe / 4 - yoe / 100) in
  let mp := (5 * doy + 2) / 153 in
  let d := doy - (153 * mp + 2) / 5 + 1 in
  let m := if mp <? 10 then mp + 3 else mp - 9 in
  let y := yoe + era * 400 in
  (if m <=? 2 then y + 1 else y, m, d).

Definition MS_PER_DAY : Z := 86400000.

(** The wall-clock reading as milliseconds since 1970-01-01T00:00 of the
    same clock: [d.getTime() - d.getTimezoneOffset() * 60 * 1000]. *)
Definition localTime (d : DateTime) : Z :=
  days_from_civil (year d) (month d) (day d) * MS_PER_DAY + millis d.

Definition ofLocalTime (t : Z) : DateTime :=
  let '(y, m, d) := civil_from_days (t / MS_PER_DAY) in
  mkDateTime y m d (t mod MS_PER_DAY).

(** [addMonths]: the day of the month is kept, clamped to the length of
    the month reached. *)
Definition addMonths (d : DateTime) (amount : Z) : DateTime :=
  let idx := year d * 12 + (month d - 1) + amount in
  let y := idx / 12 in
  let m := idx mod 12 + 1 in
  let daysInMonth := getDaysInMonth y m in
  mkDateTime y m (if daysInMonth <=? day d then daysInMonth else day d)
             (millis d).

Definition addDays (d : DateTime) (amount : Z) : DateTime :=
  let '(y, m, dd) :=
    civil_from_days (days_from_civil (year d) (month d) (day d) + amount) in
  mkDateTime y m dd (millis d).

(** [add(date, {days, months, hours})]: the months, then the days, then
    the hours as milliseconds; adding no milliseconds leaves the reading as
    it is. *)
Definition add (date : JsDate) (days months hours : Z) : JsDate :=
  match date with
  | None => None
  | Some d =>
      let dateWithMonths := if months =? 0 then d else addMonths d months in
      let dateWithDays :=
        if days =? 0 then dateWithMonths else addDays dateWithMonths days in
      let msToAdd := hours * 60 * 60 * 1000 in
      Some (if msToAdd =? 0 then dateWithDays
            else ofLocalTime (localTime dateWithDays + msToAdd))
  end.

Definition startOfDay (d : DateTime) : DateTime :=
  mkDateTime (year d) (month d) (day d) 0.

(** Comparison of two instants through their wall-clock readings. *)
Definition before (a b : DateTime) : bool :=
  (year a <? year b)
  || ((year a =? year b)
      && ((month a <? month b)
          || ((month a =? month b)
              && ((day a <? day b)
                  || ((day a =? day b) && (millis a <? millis b)))))).

(** [isPast(d)]: [d] is before the current instant. *)
Definition isPast (now d : DateTime) : bool := before d now.

Definition isEqual (a b : DateTime) : bool :=
  (year a =? year b) && (month a =? month b) && (day a =? day b)
  && (millis a =? millis b).

(** *** Strings

    The functions of the library that read and write strings, and the
    one that reads the clock's zone.  The program is parametric in them;
    [Model] below gives them for the strings the program itself
    produces. *)
Class Api := {
  (** [parseISO(s)] *)
  parseISO : string -> JsDate;
  (** [parse(s, 'yyyy-MM-dd', new Date())] *)
  parse_yyyy_MM_dd : string -> JsDate;
  (** [format(d, 'yyyy-MM-dd')] for a valid date *)
  format_yyyy_MM_dd : DateTime -> string;
  (** [toDate(t)] for a number of milliseconds *)
  toDate : Z -> JsDate
}.

(** [format(d, 'yyyy-MM-dd')]: a [RangeError] on the invalid date. *)
Definition format `{Api} (d : JsDate) : Completion string :=
  match d with
  | Some d => Normal (format_yyyy_MM_dd d)
  | None => Throw (RangeError "Invalid time value")
  end.

(** Is the month of [a] strictly later than the month of [b]? *)
Definition month_later (a b : DateTime) : bool :=
  (year b <? year a) || ((year b =? year a) && (month b <? month a)).

Module Model.

(** [addLeadingZeros(n, targetLength)]. *)
Definition addLeadingZeros (n : Z) (targetLength : nat) : string :=
  (if n <? 0 then "-" else "")
  ++ padStart0 targetLength (Z_toString (Z.abs n)).

(** The tokens [yyyy], [MM] and [dd] of [format]; [y] is the year of
    the era. *)
Definition format_ymd (d : DateTime) : string :=
  let y := if 0 <? year d then year d else 1 - year d in
  addLeadingZeros y 4 ++ "-" ++ addLeadingZeros (month d) 2
  ++ "-" ++ addLeadingZeros (day d) 2.

Definition digit (c : ascii) : option Z :=
  let n := Z.of_N (N_of_ascii c) in
  if (48 <=? n) && (n <=? 57) then Some (n - 48) else None.

(** At most [n] leading digits of [s], already holding the value [acc]:
    the value read and the rest of the string. *)
Fixpoint digits_upto (n : nat) (acc : Z) (s : string) : Z * string :=
  match n, s with
  | S n', String c s' =>
      match digit c with
      | Some v => digits_upto n' (10 * acc + v) s'
      | None => (acc, s)
      end
  | _, _ => (acc, s)
  end.

(** Between one and [n] digits. *)
Definition number_upto (n : nat) (s : string) : option (Z * string) :=
  match s with
  | String c s' =>
      match digit c with
      | Some v => Some (digits_upto (n - 1) v s')
      | None => None
      end
  | EmptyString => None
  end.

(** Exactly [n] digits. *)
Fixpoint number_exactly (n : nat) (acc : Z) (s : string)
  : option (Z * string) :=
  match n with
  | O => Some (acc, s)
  | S n' =>
      match s with
      | String c s' =>
          match digit c with
          | Some v => number_exactly n' (10 * acc + v) s'
          | None => None
          end
      | EmptyString => None
      end
  end.

Definition expect (c : ascii) (s : string) : option string :=
  match s with
  | String c' s' => if Ascii.eqb c c' then Some s' else None
  | EmptyString => None
  end.

Definition valid_month_day (y m d : Z) : bool :=
  (1 <=? m) && (m <=? 12) && (1 <=? d) && (d <=? getDaysInMonth y m).

(** [parse] with the pattern [yyyy-MM-dd]: each numeric token reads
    from one digit up to its width, the year must be positive, and the
    time is midnight. *)
Definition parse_ymd (s : string) : JsDate :=
  match number_upto 4 s with
  | Some (y, s1) =>
      match expect "-" s1 with
      | Some s2 =>
          match number_upto 2 s2 with
          | Some (m, s3) =>
              match expect "-" s3 with
              | Some s4 =>
                  match number_upto 2 s4 with
                  | Some (d, EmptyString) =>
                      if (0 <? y) && valid_month_day y m d
                      then Some (mkDateTime y m d 0) else None
                  | _ => None
                  end
              | None => None
              end
          | None => None
          end
      | None => None
      end
  | None => None
  end.

(** [parseISO] on the calendar dates [YYYY-MM-DD] and [YYYY-MM] of the
    extended format, read as local midnight.  These are the shapes a
    string written by [format_ymd] and cut to a month can take; the
    other shapes of ISO 8601 (week and ordinal dates, the basic format,
    expanded years, times and zones) are outside this model, which
    answers the invalid date on them. *)
Definition parseISO_calendar (s : string) : JsDate :=
  match number_exactly 4 0 s with
  | Some (y, s1) =>
      match expect "-" s1 with
      | Some s2 =>
          match number_exactly 2 0 s2 with
          | Some (m, EmptyString) =>
              if valid_month_day y m 1
              then Some (mkDateTime y m 1 0) else None
          | Some (m, s3) =>
              match expect "-" s3 with
              | Some s4 =>
                  match number_exactly 2 0 s4 with
                  | Some (d, EmptyString) =>
                      if valid_month_day y m d
                      then Some (mkDateTime y m d 0) else None
                  | _ => None
                  end
              | None => None
              end
          | None => None
          end
      | None => None
      end
  | None => None
  end.

(** The instance of the model: the clock runs on UTC. *)
#[export] Instance api : Api := {|
  parseISO := parseISO_calendar;
  parse_yyyy_MM_dd := parse_ymd;
  format_yyyy_MM_dd := format_ymd;
  toDate := fun t => Some (ofLocalTime t)
|}.

End Model.

End DateFns.

Import DateFns.

(** ** [src/utils/utils.ts] *)

(** Is a possibly undefined number truthy? *)
Definition truthy_number (n : option Z) : bool :=
  match n with
  | Some n => negb (n =? 0)
  | None => false
  end.

Definition truthy_string (s : string) : bool := negb (String.eqb s "").

(** [createQuery(continuation = '', contracts = [], startTimestamp?,
    endTimestamp?)]. *)
Definition createQuery (continuation : option string)
    (contracts : option (list string))
    (startTimestamp endTimestamp : option Z) : string :=
  let continuation := default "" continuation in
  let contracts := default [] contracts in
  let queries :=
    [ "orderBy=updated_at"; "sortDirection=asc"; "includeDeleted=true";
      "limit=1000" ] in
  let queries :=
    match startTimestamp, endTimestamp with
    | Some s, Some e =>
        if truthy_number startTimestamp && truthy_number endTimestamp
        then app queries
               [ "startTimestamp=" ++ Z_toString (s / 1000);
                 "endTimestamp=" ++ Z_toString (e / 1000) ]
        else queries
    | _, _ => queries
    end in
  let queries :=
    if truthy_string continuation
    then app queries [ "continuation=" ++ continuation ]
    else queries in
  let queries :=
    app queries (map (fun contract => "contract=" ++ contract) contracts) in
  String.concat "&" queries.

Record Incremented := mkIncremented {
  inc_date : string;
  inc_timestamp : Z
}.

(** [incrementDate(date, {days = 0, months = 0, hours = 0})]; [date] is a
    number of milliseconds or a string.  On the invalid date [format]
    throws, so nothing is returned. *)
Definition incrementDate `{Api} (date : Z + string) (days months hours : Z)
  : Completion Incremented :=
  let newDate :=
    add (match date with inl t => toDate t | inr s => parseISO s end)
        days months hours in
  match newDate, format newDate with
  | Some d, Normal formattedDate =>
      Normal {| inc_date := formattedDate; inc_timestamp := localTime d |}
  | _, Throw e => Throw e
  | None, Normal _ => Throw (RangeError "Invalid time value")
  end.

(** [isValidDate(date)], read at the instant [now]; [date] is a [Date] or
    a string. *)
Definition isValidDate `{Api} (now : DateTime) (date : JsDate + string)
  : bool :=
  let inputDate :=
    match date with inr s => parse_yyyy_MM_dd s | inl d => d end in
  match inputDate with
  | None => false
  | Some inputDate =>
      let inputDateStartOfDay := startOfDay inputDate in
      let nowStartOfDay := startOfDay now in
      isPast now inputDateStartOfDay
      || isEqual inputDateStartOfDay nowStartOfDay
  end.

(** [toBuffer(hexValue)]. *)
Definition toBuffer (hexValue : string) : Buffer := Buffer_from_hex hexValue.

(** [addressToBuffer(hexValue = '')]. *)
Definition addressToBuffer (hexValue : option string) : Buffer :=
  Buffer_from_hex (slice 2 (default "" hexValue)).

(** ** [src/services/SyncService.ts]: the method tables

    Each table gives the own property of the literal for a name that is
    not [Js.inherited]; [None] is [undefined]. *)

(** [URL_PATHS[type]]. *)
Definition URL_PATHS (type : string) : option string :=
  if String.eqb type "sales" then Some "/sales/v4" else None.

(** [URL_BASES[chain]], for a chain that is not [Js.inherited]. *)
Definition URL_BASES (chain : string) : option string :=
  if String.eqb chain "mainnet" then Some "https://api.reservoir.tools"
  else if String.eqb chain "goerli"
  then Some "https://api-goerli.reservoir.tools"
  else if String.eqb chain "optimism"
  then Some "https://api-optimism.reservoir.tools"
  else if String.eqb chain "polygon"
  then Some "https://api-polygon.reservoir.tools"
  else None.

(** A sale as the API gives it: the fields the formatter reads. *)
Record SalesToken := mkSalesToken {
  tokenId : string;
  token_contract : string
}.

Record SalesCurrency := mkSalesCurrency {
  currency_contract : string;
  currency_name : string;
  currency_symbol : string;
  currency_decimals : Z
}.

Record SalesAmount := mkSalesAmount {
  amount_raw : string;
  amount_decimal : Q;
  amount_usd : Q;
  amount_native : Q
}.

Record SalesPrice := mkSalesPrice {
  price_currency : SalesCurrency;
  price_amount : SalesAmount
}.

Record SalesSchema := mkSalesSchema {
  saleId : string;
  token : SalesToken;
  orderId : string;
  orderSource : string;
  orderSide : string;
  orderKind : string;
  amount : string;
  sale_from : string;
  sale_to : string;
  fillSource : string;
  block : Z;
  txHash : string;
  logIndex : Z;
  batchIndex : Z;
  timestamp : Z;
  washTradingScore : Q;
  createdAt : string;
  updatedAt : string;
  price : SalesPrice;
  isDeleted : bool
}.

(** A row of the [sales] table as the formatter builds it.  [row_isDeleted]
    is the property [isDeleted] of the object: [None] once it has been
    deleted from the object. *)
Record PrismaSalesCreate := mkPrismaSalesCreate {
  row_id : Buffer;
  row_sale_id : Buffer;
  row_token_id : string;
  row_contract_id : Buffer;
  row_order_id : Buffer;
  row_order_source : string;
  row_order_side : string;
  row_order_kind : string;
  row_amount : string;
  row_from : Buffer;
  row_to : Buffer;
  row_fill_source : string;
  row_block : Z;
  row_tx_hash : Buffer;
  row_log_index : Z;
  row_batch_index : Z;
  row_timestamp : Z;
  row_wash_trading_score : Q;
  row_created_at : string;
  row_price_currency_contract : Buffer;
  row_updated_at : string;
  row_price_currency_name : string;
  row_price_currency_symbol : string;
  row_price_currency_decimals : Z;
  row_price_amount_raw : string;
  row_price_amount_decimal : Q;
  row_price_amount_usd : Q;
  row_price_amount_native : Q;
  row_isDeleted : option bool
}.

(** The identifier of the row of a sale. *)
Definition sale_row_id (sale : SalesSchema) : Buffer :=
  Buffer_from (txHash sale ++ "-" ++ Z_toString (logIndex sale)
               ++ "-" ++ Z_toString (batchIndex sale)).

Definition format_sale (sale : SalesSchema) : PrismaSalesCreate := {|
  row_id := sale_row_id sale;
  row_sale_id := toBuffer (saleId sale);
  row_token_id := tokenId (token sale);
  row_contract_id := addressToBuffer (Some (token_contract (token sale)));
  row_order_id := addressToBuffer (Some (orderId sale));
  row_order_source := orderSource sale;
  row_order_side := orderSide sale;
  row_order_kind := orderKind sale;
  row_amount := amount sale;
  row_from := addressToBuffer (Some (sale_from sale));
  row_to := addressToBuffer (Some (sale_to sale));
  row_fill_source := fillSource sale;
  row_block := block sale;
  row_tx_hash := addressToBuffer (Some (txHash sale));
  row_log_index := logIndex sale;
  row_batch_index := batchIndex sale;
  row_timestamp := timestamp sale;
  row_wash_trading_score := washTradingScore sale;
  row_created_at := createdAt sale;
  row_price_currency_contract :=
    addressToBuffer (Some (currency_contract (price_currency (price sale))));
  row_updated_at := updatedAt sale;
  row_price_currency_name := currency_name (price_currency (price sale));
  row_price_currency_symbol := currency_symbol (price_currency (price sale));
  row_price_currency_decimals :=
    currency_decimals (price_currency (price sale));
  row_price_amount_raw := amount_raw (price_amount (price sale));
  row_price_amount_decimal := amount_decimal (price_amount (price sale));
  row_price_amount_usd := amount_usd (price_amount (price sale));
  row_price_amount_native := amount_native (price_amount (price sale));
  row_isDeleted := Some (isDeleted sale)
|}.

(** [FORMAT_METHODS.sales]; the payload may be undefined. *)
Definition FORMAT_METHODS_sales (sales : option (list SalesSchema))
  : list PrismaSalesCreate :=
  match sales with
  | None => []
  | Some sales => map format_sale sales
  end.

(** The filter of [PARSER_METHODS.sales]. *)
Definition in_contracts (contracts : list string) (s : SalesSchema) : bool :=
  includes (map toLowerCase contracts)
           (toLowerCase (token_contract (token s))).

(** [PARSER_METHODS.sales]. *)
Definition PARSER_METHODS_sales (sales : option (list SalesSchema))
    (contracts : option (list string)) : Completion (list PrismaSalesCreate) :=
  match contracts with
  | Some (c :: cs) =>
      match sales with
      | Some sales =>
          Normal (FORMAT_METHODS_sales
                    (Some (List.filter (in_contracts (c :: cs)) sales)))
      | None =>
          Throw (TypeError "Cannot read properties of undefined (reading 'filter')")
      end
  | _ => Normal (FORMAT_METHODS_sales sales)
  end.

(** [PARSER_METHODS[type]], for a type that is not [Js.inherited]. *)
Definition PARSER_METHODS (type : string)
  : option (option (list SalesSchema) -> option (list string)
            -> Completion (list PrismaSalesCreate)) :=
  if String.eqb type "sales" then Some PARSER_METHODS_sales else None.

(** *** The request method

    What [axios.get] can do: resolve with a response, reject with an Axios
    error (which carries the response when the server answered, and none
    when the transport failed), or fail with any other value. *)
Section Request.

Variable Body : Type.      (* the type of a response body *)
Variable Other : Type.     (* values thrown that are not of axios *)

Record AxiosResponse := mkAxiosResponse {
  res_status : Z;
  res_data : option Body
}.

Record AxiosError := mkAxiosError {
  err_response : option AxiosResponse
}.

Inductive AxiosOutcome :=
| Resolved (_res : AxiosResponse)
| RejectedAxios (err : AxiosError)
| RejectedOther (err : Other).

(** What the [catch] clause can receive. *)
Inductive Caught :=
| CaughtResponse (_res : AxiosResponse)
| CaughtAxios (err : AxiosError)
| CaughtOther (err : Other).

Definition isAxiosError (err : Caught) : option AxiosError :=
  match err with
  | CaughtAxios e => Some e
  | _ => None
  end.

Inductive ApiData :=
| Data (body : option Body)
| UnknownError (status : Z) (message : string) (error : Caught).

Record ApiResponse := mkApiResponse {
  status : Z;
  data : ApiData
}.

(** The [try] block: its value, or what it throws. *)
Definition REQUEST_METHODS_sales_try (got : AxiosOutcome)
  : ApiResponse + Caught :=
  match got with
  | Resolved _res =>
      if negb (res_status _res =? 200) then inr (CaughtResponse _res)
      else inl {| status := res_status _res; data := Data (res_data _res) |}
  | RejectedAxios err => inr (CaughtAxios err)
  | RejectedOther err => inr (CaughtOther err)
  end.

(** The [catch] clause. *)
Definition REQUEST_METHODS_sales_catch (err : Caught) : ApiResponse :=
  match isAxiosError err with
  | Some e =>
      {| status :=
           match err_response e with
           | Some r => if res_status r =? 0 then 500 else res_status r
           | None => 500
           end;
         data :=
           Data (match err_response e with
                 | Some r => res_data r
                 | None => None
                 end) |}
  | None =>
      {| status := 500;
         data := UnknownError 500 "Unknown error." err |}
  end.

(** [REQUEST_METHODS.sales({url, query, apiKey})]; [axios_get] answers
    the request to the URL with the key. *)
Definition REQUEST_METHODS_sales
    (axios_get : string -> string -> AxiosOutcome)
    (url query apiKey : string) : Completion ApiResponse :=
  match REQUEST_METHODS_sales_try (axios_get (url ++ "?" ++ query) apiKey)
  with
  | inl response => Normal response
  | inr err => Normal (REQUEST_METHODS_sales_catch err)
  end.

(** [REQUEST_METHODS[type]], for a type that is not [Js.inherited]. *)
Definition REQUEST_METHODS (type : string) :=
  if String.eqb type "sales" then Some REQUEST_METHODS_sales else None.

End Request.

Arguments mkAxiosResponse {Body}.
Arguments res_status {Body}.
Arguments res_data {Body}.
Arguments mkAxiosError {Body}.
Arguments err_response {Body}.
Arguments Resolved {Body Other}.
Arguments RejectedAxios {Body Other}.
Arguments RejectedOther {Body Other}.
Arguments CaughtResponse {Body Other}.
Arguments CaughtAxios {Body Other}.
Arguments CaughtOther {Body Other}.
Arguments Data {Body Other}.
Arguments UnknownError {Body Other}.
Arguments mkApiResponse {Body Other}.
Arguments status {Body Other}.
Arguments data {Body Other}.
Arguments REQUEST_METHODS_sales_try {Body Other}.
Arguments REQUEST_METHODS_sales_catch {Body Other}.
Arguments REQUEST_METHODS_sales {Body Other}.
Arguments REQUEST_METHODS {Body Other}.

(** ** [src/services/SyncService.ts]: the service *)

(** The checkpoint tree. *)
Record WorkerBackup := mkWorkerBackup {
  wb_date : string;
  wb_timestamp : Z;
  wb_continuation : string
}.

Record ManagerBackup := mkManagerBackup {
  mb_date : string;
  mb_timestamp : Z;
  mb_workers : list WorkerBackup
}.

Record BackupData := mkBackupData {
  bd_date : string;
  bd_managers : option (list ManagerBackup)
}.

Record Backup := mkBackup {
  bk_type : string;
  bk_data : BackupData
}.

(** [SyncerConfig]; its declaration is not part of these files, the
    fields are those the service reads.  The two counts are optional
    numbers. *)
Record SyncerConfig := mkSyncerConfig {
  cfg_type : string;
  cfg_chain : string;
  cfg_apiKey : string;
  cfg_contracts : option (list string);
  cfg_date : string;
  cfg_managerCount : option Z;
  cfg_workerCount : option Z;
  cfg_backup : option Backup
}.

(** [config.backup?.data.managers]. *)
Definition checkpoint_managers (config : SyncerConfig)
  : option (list ManagerBackup) :=
  match cfg_backup config with
  | Some backup => bd_managers (bk_data backup)
  | None => None
  end.

(** [Number(count || 1)]. *)
Definition Number_or_1 (count : option Z) : Z :=
  if truthy_number count then default 1 count else 1.

(** The argument of [new SyncManager]; the callbacks it also carries are
    the methods of the service below. *)
Record ManagerConfig := mkManagerConfig {
  mc_id : string;
  mc_date : string;
  mc_workers : option (list WorkerBackup);
  mc_workerCount : Z
}.

(** Modelled from the spec: the class [SyncManager] is not part of these
    files.  The spec gives a manager an assigned month ([date]), a
    last-progress timestamp, the flag [isBackfilled] and its workers; the
    service reads these and writes [config.date]. *)
Record SyncManager := mkSyncManager {
  manager_config : ManagerConfig;
  manager_timestamp : Z;
  isBackfilled : bool;
  manager_workers : list (string * WorkerBackup)
}.

(** Modelled from the spec: a manager's [date] is its assigned month, the
    [date] of its configuration. *)
Definition manager_date (m : SyncManager) : string :=
  mc_date (manager_config m).

(** Modelled from the spec: [new SyncManager(config)] is not backfilled
    and has made no progress; its workers are created when it is
    launched. *)
Definition new_SyncManager (c : ManagerConfig) : SyncManager := {|
  manager_config := c;
  manager_timestamp := 0;
  isBackfilled := false;
  manager_workers := []
|}.

Definition set_config_date (d : string) (m : SyncManager) : SyncManager := {|
  manager_config :=
    {| mc_id := mc_id (manager_config m);
       mc_date := d;
       mc_workers := mc_workers (manager_config m);
       mc_workerCount := mc_workerCount (manager_config m) |};
  manager_timestamp := manager_timestamp m;
  isBackfilled := isBackfilled m;
  manager_workers := manager_workers m
|}.

(** The calls to the collaborators. *)
Inductive Effect :=
| BackupService_backup (payload : Backup)
| InsertionService_upsert (table : string) (data : list PrismaSalesCreate)
| InsertionService_delete (table : string) (ids : list Buffer).

(** A [Map] with string keys, in insertion order. *)
Fixpoint Map_set {V : Type} (k : string) (v : V) (m : list (string * V))
  : list (string * V) :=
  match m with
  | [] => [(k, v)]
  | (k', v') :: m' =>
      if String.eqb k k' then (k, v) :: m' else (k', v') :: Map_set k v m'
  end.

(** [m.delete(k)]; no key of the map is [undefined]. *)
Definition Map_delete {V : Type} (k : option string) (m : list (string * V))
  : list (string * V) :=
  match k with
  | Some k => List.filter (fun kv => negb (String.eqb k (fst kv))) m
  | None => m
  end.

Definition Map_has {V : Type} (k : string) (m : list (string * V)) : bool :=
  existsb (fun kv => String.eqb k (fst kv)) m.

(** The generator of identifiers: [uuid n] is the value of the [n]-th call
    of [uuid()]. *)
Class Uuidv4 := { uuid : nat -> string }.

(** The fields of the service, and with them the world it acts on: the
    store of the manager objects, the number of identifiers drawn, and the
    calls made to the collaborators. *)
Record SyncService := mkSyncService {
  config : SyncerConfig;
  managers : list (string * nat);
  _date : string;
  _apiKey : string;
  _isBackfilled : bool;
  store : list SyncManager;
  uuids : nat;
  effects : list Effect
}.

(** [new SyncService(config)]. *)
Definition new_SyncService (config : SyncerConfig) : SyncService := {|
  config := config;
  managers := [];
  _date := cfg_date config;
  _apiKey := cfg_apiKey config;
  _isBackfilled := false;
  store := [];
  uuids := 0;
  effects := []
|}.

Definition set_date (d : string) (s : SyncService) : SyncService :=
  mkSyncService (config s) (managers s) d (_apiKey s) (_isBackfilled s)
                (store s) (uuids s) (effects s).

Definition set_isBackfilled (b : bool) (s : SyncService) : SyncService :=
  mkSyncService (config s) (managers s) (_date s) (_apiKey s) b
                (store s) (uuids s) (effects s).

Definition set_managers (m : list (string * nat)) (s : SyncService)
  : SyncService :=
  mkSyncService (config s) m (_date s) (_apiKey s) (_isBackfilled s)
                (store s) (uuids s) (effects s).

Definition set_store (h : list SyncManager) (s : SyncService) : SyncService :=
  mkSyncService (config s) (managers s) (_date s) (_apiKey s)
                (_isBackfilled s) h (uuids s) (effects s).

Definition perform (e : Effect) (s : SyncService) : SyncService :=
  mkSyncService (config s) (managers s) (_date s) (_apiKey s)
                (_isBackfilled s) (store s) (uuids s) (app (effects s) [e]).

(** The managers of the map, in its order. *)
Definition managers_values (s : SyncService) : list SyncManager :=
  omap (fun kv => store s !! snd kv) (managers s).

(** What [Promise.allSettled] reports for one manager's [launch()]: the
    value it resolved to (for a manager, its identifier), or the reason of
    its rejection. *)
Inductive PromiseSettledResult :=
| fulfilled (value : option string)
| rejected (reason : Error).

(** [promise.value]. *)
Definition settled_value (promise : PromiseSettledResult) : option string :=
  match promise with
  | fulfilled value => value
  | rejected _ => None
  end.

(** The argument of [_request]. *)
Record Request := mkRequest {
  req_continuation : option string;
  req_startTimestamp : option Z;
  req_endTimestamp : option Z
}.

Section Service.

Context `{Api} `{Uuidv4}.

(** The first-of-month string of the cursor, one month later. *)
Definition next_month (this : SyncService) : Completion Incremented :=
  incrementDate (inr (substring 0 7 (_date this) ++ "-01")) 0 1 0.

(** [this.managers.set(id, new SyncManager({id, date, workers, ...}))]
    with a fresh [id]. *)
Definition add_manager (date : string) (workers : option (list WorkerBackup))
    (this : SyncService) : SyncService :=
  let id := cfg_type (config this) ++ "-manager-" ++ uuid (uuids this) in
  let manager :=
    new_SyncManager
      {| mc_id := id;
         mc_date := date;
         mc_workers := workers;
         mc_workerCount := Number_or_1 (cfg_workerCount (config this)) |} in
  mkSyncService (config this)
                (Map_set id (length (store this)) (managers this))
                (_date this) (_apiKey this) (_isBackfilled this)
                (app (store this) [manager]) (S (uuids this))
                (effects this).

(** The loop of [_createManagers] from the index [i], with [todo] rounds
    left. *)
Fixpoint _createManagers_from (todo i : nat) (now : DateTime)
    (this : SyncService) : Completion unit * SyncService :=
  match todo with
  | O => (Normal tt, this)
  | S todo' =>
      if (i =? 0)%nat
      then _createManagers_from todo' (S i) now
             (add_manager (_date this) None this)
      else
        match next_month this with
        | Throw e => (Throw e, this)
        | Normal r =>
            if negb (isValidDate now (inr (inc_date r)))
            then (Normal tt, this)
            else
              let this := set_date (inc_date r) this in
              _createManagers_from todo' (S i) now
                (add_manager (_date this) None this)
        end
  end.

(** [_createManagers()]. *)
Definition _createManagers (now : DateTime) (this : SyncService)
  : Completion unit * SyncService :=
  _createManagers_from
    (Z.to_nat (Number_or_1 (cfg_managerCount (config this)))) 0 now this.

(** [_restoreManagers()] on the managers of the checkpoint: the map is
    built anew. *)
Definition _restoreManagers (backup_managers : list ManagerBackup)
    (this : SyncService) : SyncService :=
  foldl (fun this manager =>
           add_manager (mb_date manager) (Some (mb_workers manager)) this)
        (set_managers [] this) backup_managers.

Definition backup_of_worker (worker : string * WorkerBackup)
  : WorkerBackup :=
  {| wb_date := wb_date (snd worker);
     wb_timestamp := wb_timestamp (snd worker);
     wb_continuation := wb_continuation (snd worker) |}.

Definition backup_of_manager (manager : SyncManager) : ManagerBackup :=
  {| mb_date := manager_date manager;
     mb_timestamp := manager_timestamp manager;
     mb_workers := map backup_of_worker (manager_workers manager) |}.

(** [_backup()]: the call to [BackupService.backup]. *)
Definition _backup (this : SyncService) : SyncService :=
  perform
    (BackupService_backup
       {| bk_type := cfg_type (config this);
          bk_data :=
            {| bd_date := _date this;
               bd_managers :=
                 Some (map backup_of_manager (managers_values this)) |} |})
    this.

(** [_deleteManager(id)]. *)
Definition _deleteManager (id : option string) (this : SyncService)
  : SyncService :=
  set_managers (Map_delete id (managers this)) this.

(** [_continueWork(manager)]; the manager is given by its address. *)
Definition _continueWork (manager : nat) (now : DateTime)
    (this : SyncService) : Completion bool * SyncService :=
  match next_month this with
  | Throw e => (Throw e, this)
  | Normal r =>
      let _date := inc_date r in
      if isValidDate now (inr _date)
      then
        let this := set_date _date this in
        let this :=
          set_store (alter (set_config_date _date) manager (store this))
                    this in
        (Normal true, this)
      else (Normal false, this)
  end.

(** [_reviewManager(manager)]. *)
Definition _reviewManager (manager : nat) (now : DateTime)
    (this : SyncService) : Completion bool * SyncService :=
  match store this !! manager with
  | None => (Throw (TypeError "manager is undefined"), this)
  | Some m =>
      if isBackfilled m
      then
        let this := set_isBackfilled true this in
        let this := _backup this in
        (Normal true, this)
      else
        let this := _backup this in
        _continueWork manager now this
  end.

(** [_launchManagers()] after the join: [settled] is what
    [Promise.allSettled] reports, one result per manager. *)
Definition _launchManagers (settled : list PromiseSettledResult)
    (this : SyncService) : SyncService :=
  foldl (fun this promise => _deleteManager (settled_value promise) this)
        this settled.

(** [launch()], as far as the service itself acts: the managers are
    restored or created.  Its last statement, [this._launchManagers()],
    calls the [launch()] of every manager of the map; that method belongs
    to [SyncManager], which is not part of these files, and what it does
    to the service it does through the methods below, which it holds as
    callbacks.  [launch] here stops before that call; the settled results
    of the managers are joined by [_launchManagers]. *)
Definition launch (now : DateTime) (this : SyncService)
  : Completion unit * SyncService :=
  match checkpoint_managers (config this) with
  | Some backup_managers =>
      (Normal tt, _restoreManagers backup_managers this)
  | None => _createManagers now this
  end.

(** [_parse(data)]. *)
Definition _parse (data : option (list SalesSchema)) (this : SyncService)
  : Completion (list PrismaSalesCreate) :=
  match PARSER_METHODS (cfg_type (config this)) with
  | Some parser => parser data (cfg_contracts (config this))
  | None => Throw (TypeError "PARSER_METHODS[this.config.type] is not a function")
  end.

(** [delete value.isDeleted]. *)
Definition delete_isDeleted (value : PrismaSalesCreate)
  : PrismaSalesCreate :=
  mkPrismaSalesCreate
    (row_id value) (row_sale_id value) (row_token_id value)
    (row_contract_id value) (row_order_id value) (row_order_source value)
    (row_order_side value) (row_order_kind value) (row_amount value)
    (row_from value) (row_to value) (row_fill_source value)
    (row_block value) (row_tx_hash value) (row_log_index value)
    (row_batch_index value) (row_timestamp value)
    (row_wash_trading_score value) (row_created_at value)
    (row_price_currency_contract value) (row_updated_at value)
    (row_price_currency_name value) (row_price_currency_symbol value)
    (row_price_currency_decimals value) (row_price_amount_raw value)
    (row_price_amount_decimal value) (row_price_amount_usd value)
    (row_price_amount_native value) None.

(** Is the property [isDeleted] of the row truthy? *)
Definition flagged (data : PrismaSalesCreate) : bool :=
  match row_isDeleted data with
  | Some b => b
  | None => false
  end.

(** [_insert(data)]; [data] is the body of a page, an object indexed by
    the entity types. *)
Definition _insert (data : gmap string (list SalesSchema))
    (this : SyncService) : Completion unit * SyncService :=
  match _parse (data !! cfg_type (config this)) this with
  | Throw e => (Throw e, this)
  | Normal rows =>
      let this :=
        perform (InsertionService_upsert (cfg_type (config this))
                   (map delete_isDeleted rows)) this in
      match _parse (data !! cfg_type (config this)) this with
      | Throw e => (Throw e, this)
      | Normal rows =>
          let this :=
            perform (InsertionService_delete (cfg_type (config this))
                       (map (fun value => row_id (delete_isDeleted value))
                            (List.filter flagged rows))) this in
          (Normal tt, this)
      end
  end.

(** [_request({continuation, startTimestamp, endTimestamp})]. *)
Definition _request {Body Other : Type}
    (axios_get : string -> string -> AxiosOutcome Body Other)
    (request : Request) (this : SyncService)
  : Completion (ApiResponse Body Other) :=
  match REQUEST_METHODS (cfg_type (config this)) with
  | Some method =>
      method axios_get
        (template (URL_BASES (cfg_chain (config this)))
         ++ template (URL_PATHS (cfg_type (config this))))
        (createQuery (req_continuation request)
                     (cfg_contracts (config this))
                     (req_startTimestamp request)
                     (req_endTimestamp request))
        (_apiKey this)
  | None => Throw (TypeError "REQUEST_METHODS[this.config.type] is not a function")
  end.

End Service.

(** A generator of identifiers for the sample runs: the calls are
    numbered. *)
Module Counter.
#[export] Instance uuidv4 : Uuidv4 :=
  {| uuid := fun n => Z_toString (Z.of_nat n) |}.
End Counter.

(** ** The specification's own words

    Definitions that follow the text of the specification, to be compared
    with the code above. *)

(** The query of the upstream request:
    [orderBy=updated_at&sortDirection=asc&includeDeleted=true&limit=1000]
    [[&startTimestamp=T0][&endTimestamp=T1][&continuation=C][&contract=0x..]*]. *)
Definition spec_query (window : option (Z * Z)) (continuation : option string)
    (contracts : list string) : string :=
  "orderBy=updated_at&sortDirection=asc&includeDeleted=true&limit=1000"
  ++ match window with
     | Some (T0, T1) =>
         "&startTimestamp=" ++ Z_toString T0
         ++ "&endTimestamp=" ++ Z_toString T1
     | None => ""
     end
  ++ match continuation with
     | Some C => "&continuation=" ++ C
     | None => ""
     end
  ++ String.concat "" (map (fun contract => "&contract=" ++ contract) contracts).

(** The continuation token, when there is one: the empty token is the
    absent one. *)
Definition present_continuation (continuation : option string)
  : option string :=
  match continuation with
  | Some C => if truthy_string C then Some C else None
  | None => None
  end.

(** The window in whole seconds, when both bounds are provided. *)
Definition provided_window (startTimestamp endTimestamp : option Z)
  : option (Z * Z) :=
  match startTimestamp, endTimestamp with
  | Some s, Some e => Some (s / 1000, e / 1000)
  | _, _ => None
  end.

(** The window in whole seconds, when both bounds are provided and
    neither is zero. *)
Definition nonzero_window (startTimestamp endTimestamp : option Z)
  : option (Z * Z) :=
  match startTimestamp, endTimestamp with
  | Some s, Some e =>
      if negb (s =? 0) && negb (e =? 0) then Some (s / 1000, e / 1000)
      else None
  | _, _ => None
  end.

(** The write of a page as the specification partitions it: the rows
    without the flag are upserted, the rows with the flag are deleted by
    identifier, and no row carries the flag. *)
Definition spec_apply (table : string) (rows : list SalesSchema)
  : list Effect :=
  [ InsertionService_upsert table
      (map (fun sale => delete_isDeleted (format_sale sale))
           (List.filter (fun sale => negb (isDeleted sale)) rows));
    InsertionService_delete table
      (map sale_row_id (List.filter isDeleted rows)) ].

(** The write of a page in two phases: every row is upserted, then the
    rows with the flag are deleted by identifier; no row carries the
    flag. *)
Definition two_phase_apply (table : string) (rows : list SalesSchema)
  : list Effect :=
  [ InsertionService_upsert table
      (map (fun sale => delete_isDeleted (format_sale sale)) rows);
    InsertionService_delete table
      (map sale_row_id (List.filter isDeleted rows)) ].

(** The rows of a page that the allow-list of the configuration keeps. *)
Definition allowed (contracts : option (list string))
    (sales : list SalesSchema) : list SalesSchema :=
  match contracts with
  | Some (c :: cs) => List.filter (in_contracts (c :: cs)) sales
  | _ => sales
  end.

(** The first day of the month [i] months after the month of [start], as
    the cursor writes it. *)
Definition month_start `{Api} (start : DateTime) (i : nat) : string :=
  format_yyyy_MM_dd
    (addMonths (mkDateTime (year start) (month start) 1 0) (Z.of_nat i)).

(** The dates assigned to the managers of the map, in its order. *)
Definition assigned_dates (this : SyncService) : list string :=
  map manager_date (managers_values this).

(** What a manager was created with: its month and the workers restored
    into it. *)
Definition assignment (m : SyncManager) : string * option (list WorkerBackup) :=
  (mc_date (manager_config m), mc_workers (manager_config m)).

(** The payload of a generic failure. *)
Definition generic_failure {Body Other : Type} (d : ApiData Body Other)
  : bool :=
  match d with
  | UnknownError 500 "Unknown error." _ => true
  | _ => false
  end.

(** ** Notions of the proofs *)

(** The map of a service is well formed when its keys were drawn from the
    generator and its values are addresses of the store. *)
Definition well_formed `{Uuidv4} (this : SyncService) : Prop :=
  forall k a, In (k, a) (managers this) ->
    (a < length (store this))%nat
    /\ exists n, (n < uuids this)%nat
                 /\ k = cfg_type (config this) ++ "-manager-" ++ uuid n.

(** [check] holds on the [n] integers from [lo] on. *)
Fixpoint forall_from (check : Z -> bool) (n : nat) (lo : Z) : bool :=
  match n with
  | O => true
  | S n' => check lo && forall_from check n' (lo + 1)
  end.

(** The first seven characters of a formatted date. *)
Definition year_month (y m : Z) : string :=
  Model.addLeadingZeros y 4 ++ "-" ++ Model.addLeadingZeros m 2.

Definition DateTime_eqb (a : JsDate) (b : DateTime) : bool :=
  match a with
  | Some a => isEqual a b
  | None => false
  end.

(** What is checked of each month of the years 1 to 9999: the width of
    its prefix, and that both readers read its first day back. *)
Definition month_checks (y m : Z) : bool :=
  (String.length (year_month y m) =? 7)%nat
  && DateTime_eqb (Model.parseISO_calendar (year_month y m ++ "-01"))
                  (mkDateTime y m 1 0)
  && DateTime_eqb (Model.parse_ymd (year_month y m ++ "-01"))
                  (mkDateTime y m 1 0).

(** The month [m] of the year [y] has the index [12 * y + m - 1]; the
    first day of the month of index [k]: *)
Definition first_of_month (k : Z) : DateTime :=
  mkDateTime (k / 12) (k mod 12 + 1) 1 0.

(** ** Sample inputs *)

Module Examples.

Definition noon_1_march_2023 : DateTime := mkDateTime 2023 3 1 43200000.

(** Two managers from mid-January 2023, no checkpoint. *)
Definition two_units : SyncerConfig :=
  mkSyncerConfig "sales" "mainnet" "demo-key" None "2023-01-15"
                 (Some 2) None None.

(** A manager count of zero. *)
Definition zero_units : SyncerConfig :=
  mkSyncerConfig "sales" "mainnet" "demo-key" None "2023-01-15"
                 (Some 0) None None.

(** A single manager and an allow-list of one contract. *)
Definition one_unit_one_contract : SyncerConfig :=
  mkSyncerConfig "sales" "mainnet" "demo-key"
                 (Some ["0x8d04a8c79cEB0889Bdd12acdF3Fa9D207eD3Ff63"])
                 "2023-01-15" (Some 1) None None.

(** A checkpoint of two managers. *)
Definition checkpoint : Backup :=
  mkBackup "sales"
    (mkBackupData "2023-02-01"
       (Some [ mkManagerBackup "2023-01-15" 1673800000
                 [ mkWorkerBackup "2023-01-15" 1673800000 "c1" ];
               mkManagerBackup "2023-02-01" 1675300000 [] ])).

Definition restored : SyncerConfig :=
  mkSyncerConfig "sales" "mainnet" "demo-key" None "2023-01-15"
                 (Some 2) None (Some checkpoint).

Definition sale (deleted : bool) : SalesSchema :=
  mkSalesSchema
    "a1b2"
    (mkSalesToken "42" "0x8d04a8c79cEB0889Bdd12acdF3Fa9D207eD3Ff63")
    "0x0f" "opensea.io" "ask" "seaport" "1" "0x01" "0x02" "opensea.io"
    16500000 "0xabcd" 7 0 1673800000 (0 # 1)
    "2023-01-15T16:26:40.000Z" "2023-01-15T16:26:40.000Z"
    (mkSalesPrice
       (mkSalesCurrency "0x0000000000000000000000000000000000000000"
                        "Ether" "ETH" 18)
       (mkSalesAmount "1500000000000000000" (3 # 2) (2400 # 1) (3 # 2)))
    deleted.

(** A page whose only sale is flagged as deleted. *)
Definition deleted_page : gmap string (list SalesSchema) :=
  {[ "sales" := [ sale true ] ]}.

(** A page of one live and one deleted sale. *)
Definition mixed_page : gmap string (list SalesSchema) :=
  {[ "sales" := [ sale false; sale true ] ]}.

(** The body of a response that carries no sales. *)
Definition empty_page : gmap string (list SalesSchema) := ∅.

(** The service launched with [two_units] at noon of 1 March 2023. *)
Definition launched : SyncService :=
  snd (@launch Model.api Counter.uuidv4 noon_1_march_2023
         (new_SyncService two_units)).

(** The same service once its second manager has caught up with the
    present. *)
Definition tailing : SyncService :=
  set_store
    (alter (fun m => mkSyncManager (manager_config m) 1677672000 true
                                   (manager_workers m))
           1%nat (store launched))
    launched.

End Examples.

(** ** Further functions of the two files *)

(** [isSuccessResponse(response)]. *)
Definition isSuccessResponse {Body Other : Type}
    (response : ApiResponse Body Other) : bool :=
  status response =? 200.

(** [isSameMonth] of the library, on two dates: the years and the months
    agree; it is false as soon as one date is invalid. *)
Definition _isSameMonth (dateLeft dateRight : JsDate) : bool :=
  match dateLeft, dateRight with
  | Some a, Some b => (year a =? year b) && (month a =? month b)
  | _, _ => false
  end.

(** [isSameMonth(dateOne, dateTwo)]. *)
Definition isSameMonth `{Api} (dateOne dateTwo : string) : bool :=
  _isSameMonth (parse_yyyy_MM_dd dateOne) (parse_yyyy_MM_dd dateTwo).

(** [_count(data)]. *)
Definition _count (data : gmap string (list SalesSchema))
    (this : SyncService) : Completion Z :=
  match data !! cfg_type (config this) with
  | Some rows => Normal (Z.of_nat (length rows))
  | None =>
      Throw (TypeError "Cannot read properties of undefined (reading 'length')")
  end.

(** [_format(data)]. *)
Definition _format (data : gmap string (list SalesSchema))
    (this : SyncService) : option (list SalesSchema) :=
  data !! cfg_type (config this).

(** *** Notions of the further properties *)

(** The response that the request method forms of an outcome of the HTTP
    call: the value of its [try] block, or of its [catch] clause. *)
Definition answer {Body Other : Type} (got : AxiosOutcome Body Other)
  : ApiResponse Body Other :=
  match REQUEST_METHODS_sales_try got with
  | inl response => response
  | inr err => REQUEST_METHODS_sales_catch err
  end.

(** Is the calendar day of [a] after the calendar day of [b]? *)
Definition day_later (a b : DateTime) : bool :=
  (year b <? year a)
  || ((year b =? year a)
      && ((month b <? month a)
          || ((month b =? month a) && (day b <? day a)))).

(** The first day of the month after the month [m] of the year [y]. *)
Definition first_of_following_month (y m : Z) : DateTime :=
  if m =? 12 then mkDateTime (y + 1) 1 1 0 else mkDateTime y (m + 1) 1 0.

(** [buffer.toString('hex')]: two lower-case hexadecimal digits per
    byte. *)
Definition hex_char (n : N) : ascii :=
  if (n <? 10)%N then ascii_of_N (48 + n) else ascii_of_N (87 + n).

Fixpoint toHex (buffer : Buffer) : string :=
  match buffer with
  | [] => EmptyString
  | b :: rest =>
      let n := N_of_ascii (ascii_of_byte b) in
      String (hex_char (n / 16)) (String (hex_char (n mod 16)) (toHex rest))
  end.

(** The identifiers that the settled results of the join name. *)
Definition settled_ids (settled : list PromiseSettledResult) : list string :=
  omap settled_value settled.

(** The map is keyed by the managers' own identifiers: every entry leads
    to a manager object that carries the key as its identifier, and no two
    entries have the same key. *)
Definition keyed_by_id (this : SyncService) : Prop :=
  NoDup (map fst (managers this))
  /\ forall k a, In (k, a) (managers this) ->
       exists m, store this !! a = Some m /\ mc_id (manager_config m) = k.


(** A string without the character [-]. *)
Fixpoint dash_free (s : string) : bool :=
  match s with
  | EmptyString => true
  | String c s' => negb (Ascii.eqb c "-") && dash_free s'
  end.

(** ** Further sample inputs *)

Module Samples.

(** A start date that is not a date. *)
Definition unread_start : SyncerConfig :=
  mkSyncerConfig "sales" "mainnet" "demo-key" None "soon" (Some 2) None None.

(** The same, with one manager. *)
Definition unread_start_one : SyncerConfig :=
  mkSyncerConfig "sales" "mainnet" "demo-key" None "soon" (Some 1) None None.

(** The service of [unread_start_one] once launched: one manager, and a
    cursor that is not a date. *)
Definition adrift : SyncService :=
  snd (@launch Model.api Counter.uuidv4 Examples.noon_1_march_2023
         (new_SyncService unread_start_one)).

(** A checkpoint with no manager. *)
Definition empty_checkpoint : SyncerConfig :=
  mkSyncerConfig "sales" "mainnet" "demo-key" None "2023-01-15" (Some 3) None
                 (Some (mkBackup "sales" (mkBackupData "2023-02-01" (Some [])))).

(** A type for which the tables have no handler. *)
Definition asks : SyncerConfig :=
  mkSyncerConfig "asks" "mainnet" "demo-key" None "2023-01-15" (Some 1) None
                 None.

(** A chain for which the table has no base. *)
Definition unknown_chain : SyncerConfig :=
  mkSyncerConfig "sales" "base" "demo-key" None "2023-01-15" (Some 1) None
                 None.

(** The service of [Examples.tailing] after the review of its backfilled
    manager: the global flag is set. *)
Definition promoted : SyncService :=
  snd (@_reviewManager Model.api 1 Examples.noon_1_march_2023
         Examples.tailing).


(** A first page of sales from the start of the window. *)
Definition first_page : Request := mkRequest None (Some 1672531200000)
                                             (Some 1675209600000).

(** An HTTP layer that always answers 200 with the same body. *)
Definition always_ok : string -> string -> AxiosOutcome string string :=
  fun _ _ => Resolved (mkAxiosResponse 200 (Some "{}")).

End Samples.

(** * Properties *)

(** ** Review of a manager *)

Section Review.

Context `{Api} `{Uuidv4}.

(** A date string that passes the validity check is read by the library
    as a date whose month is not after the month of [now]. *)
Lemma isValidDate_not_later now (date : string) :
  isValidDate now (inr date) = true ->
  exists parsed, parse_yyyy_MM_dd date = Some parsed
                 /\ month_later parsed now = false.
Proof.
  unfold isValidDate.
  destruct (parse_yyyy_MM_dd date) as [d|]; [|discriminate].
  intros Hv. exists d. split; [reflexivity|].
  unfold isPast, before, isEqual, startOfDay, month_later in *.
  simpl in *. lia.
Qed.

(** [_backup] appends one call to the checkpoint service, carrying the
    cursor, and changes nothing else. *)
Lemma _backup_effects this :
  exists payload,
    effects (_backup this) = app (effects this) [BackupService_backup payload]
    /\ bd_date (bk_data payload) = _date this.
Proof. eexists. split; reflexivity. Qed.

Lemma _backup_fields this :
  store (_backup this) = store this
  /\ _date (_backup this) = _date this
  /\ managers (_backup this) = managers this
  /\ _isBackfilled (_backup this) = _isBackfilled this.
Proof. repeat split. Qed.

(** What [_continueWork] does, by the outcome of the validity check. *)
Lemma _continueWork_valid manager now this r :
  next_month this = Normal r ->
  isValidDate now (inr (inc_date r)) = true ->
  _continueWork manager now this
  = (Normal true,
     set_store (alter (set_config_date (inc_date r)) manager (store this))
               (set_date (inc_date r) this)).
Proof.
  intros Hn Hv. unfold _continueWork. rewrite Hn, Hv. reflexivity.
Qed.

Lemma _continueWork_invalid manager now this r :
  next_month this = Normal r ->
  isValidDate now (inr (inc_date r)) = false ->
  _continueWork manager now this = (Normal false, this).
Proof.
  intros Hn Hv. unfold _continueWork. rewrite Hn, Hv. reflexivity.
Qed.

(** [_continueWork] writes to the store only a date that it has
    checked. *)
Lemma _continueWork_store manager now this :
  let this' := snd (_continueWork manager now this) in
  store this' = store this
  \/ exists date,
       store this' = alter (set_config_date date) manager (store this)
       /\ _date this' = date
       /\ isValidDate now (inr date) = true.
Proof.
  unfold _continueWork.
  destruct (next_month this) as [r|e]; [|left; reflexivity].
  destruct (isValidDate now (inr (inc_date r))) eqn:Hv;
    [|left; reflexivity].
  right. exists (inc_date r). repeat split. exact Hv.
Qed.

(** C2: a review never gives a manager a month after the current one.
    Whatever the state, the manager and the instant [now], a call of
    [_reviewManager] either leaves every manager object as it was, or
    writes one date into the configuration of the reviewed manager; that
    date is the new cursor, it passes [isValidDate] at [now], and the
    month the library reads from it is not later than the month of
    [now]. *)
Theorem review_never_assigns_future_month
    (manager : nat) (now : DateTime) (this this' : SyncService)
    (result : Completion bool) :
  _reviewManager manager now this = (result, this') ->
  store this' = store this
  \/ exists date parsed,
       store this' = alter (set_config_date date) manager (store this)
       /\ _date this' = date
       /\ isValidDate now (inr date) = true
       /\ parse_yyyy_MM_dd date = Some parsed
       /\ month_later parsed now = false.
Proof.
  unfold _reviewManager.
  destruct (store this !! manager) as [m|] eqn:Hm.
  - destruct (isBackfilled m).
    + intros [= _ <-]. left. reflexivity.
    + intros Hc.
      pose proof (_continueWork_store manager now (_backup this)) as Hs.
      rewrite Hc in Hs. simpl in Hs.
      destruct Hs as [Hs | (date & Hs & Hd & Hv)]; [left; exact Hs|].
      right. destruct (isValidDate_not_later _ _ Hv) as (parsed & Hp & Hl).
      exists date, parsed. repeat split; assumption.
  - intros [= _ <-]. left. reflexivity.
Qed.

(** C5: the review of a backfilled manager.  It sets the global flag,
    calls the checkpoint service once, and returns [true]; the manager
    objects (so every assigned date), the map of managers and the cursor
    are as before. *)
Theorem review_backfilled_manager
    (manager : nat) (now : DateTime) (this : SyncService)
    (m : SyncManager) :
  store this !! manager = Some m ->
  isBackfilled m = true ->
  exists this' payload,
    _reviewManager manager now this = (Normal true, this')
    /\ _isBackfilled this' = true
    /\ effects this' = app (effects this) [BackupService_backup payload]
    /\ store this' = store this
    /\ store this' !! manager = Some m
    /\ _date this' = _date this
    /\ managers this' = managers this.
Proof.
  intros Hm Hb. unfold _reviewManager. rewrite Hm, Hb.
  eexists. eexists. split; [reflexivity|].
  repeat split. exact Hm.
Qed.

(** C6, as amended: the review of a manager that is not backfilled.  The
    review first calls the checkpoint service and then computes the month
    after the cursor, from the first seven characters of the cursor.
    - When that computation throws (the cursor is not a date that the
      library reads), the review throws the same error: it returns neither
      [true] nor [false], and neither the manager objects nor the cursor
      change.
    - When it gives a month [r] that passes the validity check, the review
      returns [true]; the reviewed manager now has the date [r] and is
      otherwise as it was, the cursor is [r], and the other manager objects
      are untouched.
    - When [r] does not pass the check, the review returns [false] and
      neither the manager objects nor the cursor change.
    And every review of a manager, backfilled or not, whatever it returns
    or throws, calls the checkpoint service exactly once. *)
Theorem review_not_backfilled_manager
    (manager : nat) (now : DateTime) (this : SyncService)
    (m : SyncManager) :
  store this !! manager = Some m ->
  (isBackfilled m = false ->
   match incrementDate (inr (substring 0 7 (_date this) ++ "-01")) 0 1 0 with
   | Normal r =>
       if isValidDate now (inr (inc_date r))
       then
         exists this' m',
           _reviewManager manager now this = (Normal true, this')
           /\ store this' !! manager = Some m'
           /\ manager_date m' = inc_date r
           /\ mc_id (manager_config m') = mc_id (manager_config m)
           /\ mc_workers (manager_config m') = mc_workers (manager_config m)
           /\ mc_workerCount (manager_config m')
              = mc_workerCount (manager_config m)
           /\ manager_timestamp m' = manager_timestamp m
           /\ isBackfilled m' = false
           /\ manager_workers m' = manager_workers m
           /\ _date this' = inc_date r
           /\ (forall other, other <> manager ->
                 store this' !! other = store this !! other)
       else
         exists this',
           _reviewManager manager now this = (Normal false, this')
           /\ store this' = store this
           /\ _date this' = _date this
   | Throw e =>
       exists this',
         _reviewManager manager now this = (Throw e, this')
         /\ store this' = store this
         /\ _date this' = _date this
   end)
  /\ (exists payload,
        effects (snd (_reviewManager manager now this))
        = app (effects this) [BackupService_backup payload]).
Proof.
  intros Hm. split.
  - intros Hb. unfold _reviewManager. rewrite Hm, Hb. unfold _continueWork.
    change (next_month (_backup this))
      with (incrementDate (inr (substring 0 7 (_date this) ++ "-01")) 0 1 0).
    destruct (incrementDate _ 0 1 0) as [r|e].
    + destruct (isValidDate now (inr (inc_date r))).
      * eexists. exists (set_config_date (inc_date r) m).
        split; [reflexivity|]. cbn [store set_store].
        split; [rewrite list_lookup_alter_eq; cbn [store set_date _backup perform];
                rewrite Hm; reflexivity|].
        repeat (split; [first [reflexivity | exact Hb]|]).
        intros other Hne. apply list_lookup_alter_ne. congruence.
      * eexists. split; [reflexivity|]. split; reflexivity.
    + eexists. split; [reflexivity|]. split; reflexivity.
  - unfold _reviewManager. rewrite Hm.
    destruct (isBackfilled m); [eexists; reflexivity|].
    unfold _continueWork.
    destruct (next_month (_backup this)) as [r|e]; [|eexists; reflexivity].
    destruct (isValidDate now (inr (inc_date r))); eexists; reflexivity.
Qed.

End Review.

(** ** The query string *)

Lemma append_assoc (a b c : string) : (a ++ b) ++ c = a ++ (b ++ c).
Proof.
  induction a as [|x a IH]; [reflexivity|].
  change (String x ((a ++ b) ++ c) = String x (a ++ (b ++ c))).
  now rewrite IH.
Qed.

Lemma append_empty_r (a : string) : a ++ "" = a.
Proof.
  induction a as [|x a IH]; [reflexivity|].
  change (String x (a ++ "") = String x a). now rewrite IH.
Qed.

Lemma concat_empty_cons (x : string) (l : list string) :
  String.concat "" (x :: l) = x ++ String.concat "" l.
Proof.
  destruct l as [|y l]; [|reflexivity].
  change (x = x ++ ""). now rewrite append_empty_r.
Qed.

Lemma concat_empty_app (l1 l2 : list string) :
  String.concat "" (app l1 l2) = String.concat "" l1 ++ String.concat "" l2.
Proof.
  induction l1 as [|x l1 IH]; [reflexivity|].
  change (app (x :: l1) l2) with (x :: app l1 l2).
  rewrite !concat_empty_cons, IH, append_assoc. reflexivity.
Qed.

(** Joining with [&] is writing the first element and then every other one
    after an [&]. *)
Lemma join_amp (x : string) (l : list string) :
  String.concat "&" (x :: l)
  = x ++ String.concat "" (map (fun y => "&" ++ y) l).
Proof.
  revert x. induction l as [|y l IH]; intros x.
  - change (x = x ++ ""). now rewrite append_empty_r.
  - change (String.concat "&" (x :: y :: l))
      with (x ++ "&" ++ String.concat "&" (y :: l)).
    rewrite IH. change (map (fun y0 => "&" ++ y0) (y :: l))
      with (("&" ++ y) :: map (fun y0 => "&" ++ y0) l).
    rewrite concat_empty_cons. reflexivity.
Qed.

(** C9, as amended: for every combination of inputs, the query of
    [createQuery] is the query of the specification: the four fixed
    parameters in their order, then the window in whole seconds when both
    bounds are provided and neither is zero, then the continuation token
    when it is not empty, then one [contract] parameter per entry of the
    allow-list. *)
Theorem createQuery_is_spec_query
    (continuation : option string) (contracts : option (list string))
    (startTimestamp endTimestamp : option Z) :
  createQuery continuation contracts startTimestamp endTimestamp
  = spec_query (nonzero_window startTimestamp endTimestamp)
               (present_continuation continuation)
               (default [] contracts).
Proof.
  set (W := match nonzero_window startTimestamp endTimestamp with
            | Some (T0, T1) =>
                [ "startTimestamp=" ++ Z_toString T0;
                  "endTimestamp=" ++ Z_toString T1 ]
            | None => []
            end).
  set (C := match present_continuation continuation with
            | Some C => [ "continuation=" ++ C ]
            | None => []
            end).
  set (K := map (fun contract => "contract=" ++ contract)
                (default [] contracts)).
  assert (Hq : createQuery continuation contracts startTimestamp endTimestamp
               = String.concat "&"
                   ("orderBy=updated_at"
                    :: app (app (app [ "sortDirection=asc";
                                       "includeDeleted=true"; "limit=1000" ]
                                     W) C) K)).
  { unfold createQuery, W, C, K, nonzero_window, present_continuation,
      truthy_number.
    destruct continuation as [c|]; simpl default;
      [destruct (truthy_string c)|change (truthy_string "") with false];
      destruct startTimestamp as [s|], endTimestamp as [e|];
      try reflexivity;
      destruct (negb (s =? 0)), (negb (e =? 0)); reflexivity. }
  rewrite Hq, join_amp, !map_app, !concat_empty_app.
  assert (HK : String.concat "" (map (fun y => "&" ++ y) K)
               = String.concat ""
                   (map (fun contract => "&contract=" ++ contract)
                        (default [] contracts))).
  { unfold K. rewrite map_map. reflexivity. }
  rewrite HK. unfold spec_query, W, C.
  destruct (nonzero_window startTimestamp endTimestamp) as [[T0 T1]|],
    (present_continuation continuation) as [c|];
    cbn [map]; rewrite !concat_empty_cons; cbn beta;
    change (String.concat "" []) with "";
    rewrite ?append_empty_r, ?append_assoc; reflexivity.
Qed.

(** C9, as stated, fails: a window that starts at the instant zero is
    provided, and the query carries no window. *)
Lemma createQuery_drops_zero_window :
  createQuery None None (Some 0) (Some 5000)
  = "orderBy=updated_at&sortDirection=asc&includeDeleted=true&limit=1000"
  /\ createQuery None None (Some 0) (Some 5000)
     <> spec_query (provided_window (Some 0) (Some 5000))
                   (present_continuation None) (default [] None).
Proof. split; [reflexivity | vm_compute; discriminate]. Qed.

(** ** The write path *)

Lemma filter_flagged_format (sales : list SalesSchema) :
  List.filter flagged (map format_sale sales)
  = map format_sale (List.filter isDeleted sales).
Proof.
  induction sales as [|sale sales IH]; [reflexivity|].
  cbn [map List.filter]. unfold flagged at 1. cbn [format_sale row_isDeleted].
  destruct (isDeleted sale); cbn [map]; now rewrite IH.
Qed.

Lemma _parse_sales (this : SyncService) (sales : list SalesSchema) :
  cfg_type (config this) = "sales" ->
  _parse (Some sales) this
  = Normal (map format_sale (allowed (cfg_contracts (config this)) sales)).
Proof.
  intros Ht. unfold _parse. rewrite Ht. cbn [PARSER_METHODS String.eqb].
  change (PARSER_METHODS "sales") with (Some PARSER_METHODS_sales).
  unfold PARSER_METHODS_sales, allowed.
  destruct (cfg_contracts (config this)) as [[|c cs]|]; reflexivity.
Qed.

(** C1, as amended: the write of a page is the two-phase apply.  For a
    service of the [sales] type and a page that carries sales, [_insert]
    calls the insertion service twice and does nothing else: first an
    upsert of every row that the allow-list keeps, with or without the
    flag, each row keyed by the identifier of its sale and none carrying
    the flag; then a delete of the identifiers of exactly the kept rows
    whose flag is set. *)
Theorem insert_is_two_phase_apply
    (data : gmap string (list SalesSchema)) (this : SyncService)
    (sales : list SalesSchema) :
  cfg_type (config this) = "sales" ->
  data !! "sales" = Some sales ->
  let rows := allowed (cfg_contracts (config this)) sales in
  exists this' upserted deleted,
    _insert data this = (Normal tt, this')
    /\ effects this'
       = app (effects this)
             [ InsertionService_upsert "sales" upserted;
               InsertionService_delete "sales" deleted ]
    /\ two_phase_apply "sales" rows
       = [ InsertionService_upsert "sales" upserted;
           InsertionService_delete "sales" deleted ]
    /\ map row_id upserted = map sale_row_id rows
    /\ Forall (fun row => row_isDeleted row = None) upserted
    /\ (forall id,
          In id deleted
          <-> exists sale,
                In sale rows /\ isDeleted sale = true
                /\ id = sale_row_id sale)
    /\ store this' = store this
    /\ managers this' = managers this
    /\ _date this' = _date this.
Proof.
  intros Ht Hd rows.
  exists (perform (InsertionService_delete "sales"
                     (map sale_row_id (List.filter isDeleted rows)))
            (perform (InsertionService_upsert "sales"
                        (map (fun sale => delete_isDeleted (format_sale sale))
                             rows)) this)),
    (map (fun sale => delete_isDeleted (format_sale sale)) rows),
    (map sale_row_id (List.filter isDeleted rows)).
  split.
  { unfold _insert. rewrite Ht, Hd, (_parse_sales this sales Ht).
    change (config (perform ?e this)) with (config this).
    rewrite Ht, Hd.
    rewrite (_parse_sales (perform _ this) sales Ht).
    change (config (perform ?e this)) with (config this).
    fold rows. rewrite filter_flagged_format, !map_map. reflexivity. }
  split.
  { cbn [perform effects]. rewrite <- app_assoc. reflexivity. }
  split; [reflexivity|].
  split; [rewrite map_map; reflexivity|].
  split.
  { apply List.Forall_forall. intros row (sale & <- & _)%in_map_iff.
    reflexivity. }
  split; [|repeat split].
  intros id. rewrite in_map_iff. split.
  - intros (sale & <- & [Hin Hdel]%filter_In). exists sale. auto.
  - intros (sale & Hin & Hdel & ->). exists sale. split; [reflexivity|].
    apply filter_In. auto.
Qed.

Lemma insert_is_two_phase_apply_witness :
  exists this' upserted deleted,
    _insert Examples.mixed_page (new_SyncService Examples.two_units)
    = (Normal tt, this')
    /\ effects this'
       = [ InsertionService_upsert "sales" upserted;
           InsertionService_delete "sales" deleted ]
    /\ length upserted = 2%nat /\ length deleted = 1%nat.
Proof.
  destruct (insert_is_two_phase_apply Examples.mixed_page
              (new_SyncService Examples.two_units)
              [Examples.sale false; Examples.sale true]
              eq_refl eq_refl)
    as (this' & upserted & deleted & Hi & He & Ha & Hu & _).
  exists this', upserted, deleted. split; [exact Hi|]. split; [exact He|].
  injection Ha as <- <-. split; reflexivity.
Defined.

(** C1, as stated, fails: a page whose only row carries the flag is
    upserted all the same (and then deleted); the partition of the
    specification upserts nothing. *)
Lemma insert_upserts_flagged_row :
  effects (snd (_insert Examples.deleted_page
                  (new_SyncService Examples.two_units)))
  = two_phase_apply "sales" [ Examples.sale true ]
  /\ effects (snd (_insert Examples.deleted_page
                     (new_SyncService Examples.two_units)))
     <> spec_apply "sales" [ Examples.sale true ].
Proof. split; [reflexivity | vm_compute; discriminate]. Qed.

(** ** The payload that carries no data *)

(** The formatter answers the empty list on an undefined payload, and so
    does the parser when no allow-list is configured. *)
Lemma format_undefined_payload : FORMAT_METHODS_sales None = [].
Proof. reflexivity. Qed.

Lemma parse_undefined_payload_no_contracts (contracts : option (list string)) :
  default [] contracts = [] ->
  PARSER_METHODS_sales None contracts = Normal [].
Proof. destruct contracts as [[|c cs]|]; [reflexivity|discriminate|reflexivity]. Qed.

(** The parser throws on an undefined payload as soon as an allow-list is
    configured: the filter runs before the formatter's guard. *)
Lemma parse_undefined_payload_contracts (c : string) (cs : list string) :
  exists e, PARSER_METHODS_sales None (Some (c :: cs)) = Throw e.
Proof. eexists. reflexivity. Qed.

(** C10, at the failing input: with one contract on the allow-list, the
    parse of a page that carries no sales throws, and the write of that
    page throws before anything is written; the formatter alone answers
    the empty list. *)
Theorem parse_undefined_payload_throws :
  FORMAT_METHODS_sales None = []
  /\ _parse (Examples.empty_page !! "sales")
            (new_SyncService Examples.one_unit_one_contract)
     = Throw (TypeError "Cannot read properties of undefined (reading 'filter')")
  /\ _insert Examples.empty_page
             (new_SyncService Examples.one_unit_one_contract)
     = (Throw (TypeError "Cannot read properties of undefined (reading 'filter')"),
        new_SyncService Examples.one_unit_one_contract).
Proof. repeat split. Qed.

(** ** The request method *)

(** C8, as amended: the request method for sales never throws.  Whatever
    the HTTP call does, it returns a pair of a status and data: a response
    of status 200 gives the upstream status and body; an Axios error that
    carries a response gives the status of that response (500 when that
    status is 0) and its body; an Axios error that carries no response, a
    failure of the transport, gives the status 500 and no data; any other
    failure gives the status 500 and the generic failure payload. *)
Theorem request_sales_never_throws {Body Other : Type}
    (axios_get : string -> string -> AxiosOutcome Body Other)
    (url query apiKey : string) :
  exists response,
    REQUEST_METHODS_sales axios_get url query apiKey = Normal response
    /\ match axios_get (url ++ "?" ++ query) apiKey with
       | Resolved _res =>
           if res_status _res =? 200
           then response = mkApiResponse 200 (Data (res_data _res))
           else True
       | RejectedAxios {| err_response := Some r |} =>
           response
           = mkApiResponse (if res_status r =? 0 then 500 else res_status r)
                           (Data (res_data r))
       | RejectedAxios {| err_response := None |} =>
           response = mkApiResponse 500 (Data None)
       | RejectedOther err =>
           response
           = mkApiResponse 500
               (UnknownError 500 "Unknown error." (CaughtOther err))
           /\ generic_failure (data response) = true
       end.
Proof.
  unfold REQUEST_METHODS_sales, REQUEST_METHODS_sales_try.
  destruct (axios_get (url ++ "?" ++ query) apiKey) as [r|[[r|]]|err].
  - destruct (res_status r =? 200) eqn:Hs.
    + eexists. split; [reflexivity|]. cbn [negb].
      apply Z.eqb_eq in Hs. rewrite <- Hs. reflexivity.
    + eexists. split; [reflexivity|]. exact I.
  - eexists. split; reflexivity.
  - eexists. split; reflexivity.
  - eexists. split; [reflexivity|]. split; reflexivity.
Qed.

(** C8, as stated, fails: when the transport fails, the answer has the
    status 500 and no data, not the generic failure payload. *)
Lemma transport_failure_has_no_payload :
  REQUEST_METHODS_sales
    (fun _ _ => RejectedAxios (mkAxiosError None) : AxiosOutcome string string)
    "https://api.reservoir.tools/sales/v4" "limit=1000" "demo-key"
  = Normal (mkApiResponse 500 (Data None))
  /\ generic_failure (Data None : ApiData string string) = false.
Proof. split; reflexivity. Qed.

(** ** The map of managers *)

Lemma Map_set_fresh {V : Type} (k : string) (v : V) (m : list (string * V)) :
  Map_has k m = false -> Map_set k v m = app m [(k, v)].
Proof.
  induction m as [|[k' v'] m IH]; [reflexivity|].
  cbn [Map_has existsb fst Map_set]. intros Hk.
  apply orb_false_iff in Hk as [Hk Hm]. rewrite Hk.
  change (app ((k', v') :: m) [(k, v)]) with ((k', v') :: app m [(k, v)]).
  f_equal. apply IH. exact Hm.
Qed.

Section Managers.

Context `{Uuidv4}.

(** The identifiers never collide. *)
Hypothesis uuid_inj : forall a b : nat, uuid a = uuid b -> a = b.

Lemma well_formed_empty this : managers this = [] -> well_formed this.
Proof. intros Hm k a. rewrite Hm. intros []. Qed.

Lemma fresh_id this :
  well_formed this ->
  Map_has (cfg_type (config this) ++ "-manager-" ++ uuid (uuids this))
          (managers this) = false.
Proof.
  intros Hwf. unfold Map_has.
  destruct (existsb _ _) eqn:He; [|reflexivity].
  apply existsb_exists in He as ([k a] & Hin & Hk).
  apply String.eqb_eq in Hk. cbn [fst] in Hk.
  destruct (Hwf k a Hin) as (_ & n & Hn & ->).
  apply (inj (String.append _)) in Hk.
  apply (inj (String.append _)) in Hk.
  apply uuid_inj in Hk. lia.
Qed.

Lemma add_manager_managers date workers this :
  well_formed this ->
  managers (add_manager date workers this)
  = app (managers this)
        [ (cfg_type (config this) ++ "-manager-" ++ uuid (uuids this),
           length (store this)) ].
Proof. intros Hwf. apply Map_set_fresh, fresh_id, Hwf. Qed.

Lemma add_manager_well_formed date workers this :
  well_formed this -> well_formed (add_manager date workers this).
Proof.
  intros Hwf k a. rewrite (add_manager_managers _ _ _ Hwf).
  cbn [add_manager store uuids config]. rewrite length_app. cbn [length].
  intros [Hin | [[= <- <-]|[]]]%in_app_or.
  - destruct (Hwf k a Hin) as (Ha & n & Hn & Hk).
    split; [lia|]. exists n. split; [lia | exact Hk].
  - split; [lia|]. exists (uuids this). split; [lia | reflexivity].
Qed.

Lemma managers_values_app_store this extra :
  well_formed this ->
  omap (fun kv : string * nat => app (store this) extra !! snd kv)
       (managers this)
  = managers_values this.
Proof.
  intros Hwf. unfold managers_values.
  assert (Hall : forall kv, In kv (managers this) ->
                   (snd kv < length (store this))%nat).
  { intros [k a] Hin. exact (proj1 (Hwf k a Hin)). }
  induction (managers this) as [|kv m IH]; [reflexivity|].
  cbn [omap list_omap]. rewrite lookup_app_l by (apply Hall; left; reflexivity).
  rewrite IH; [reflexivity|]. intros kv' Hin. apply Hall. right. exact Hin.
Qed.

(** Adding a manager appends it to the managers of the map. *)
Lemma add_manager_values date workers this :
  well_formed this ->
  exists m,
    managers_values (add_manager date workers this)
    = app (managers_values this) [m]
    /\ assignment m = (date, workers)
    /\ isBackfilled m = false.
Proof.
  intros Hwf. eexists. split.
  { unfold managers_values at 1. rewrite (add_manager_managers _ _ _ Hwf).
    cbn [add_manager store]. rewrite omap_app.
    rewrite (managers_values_app_store this _ Hwf).
    cbn [omap list_omap snd]. rewrite list_lookup_middle by reflexivity.
    reflexivity. }
  split; reflexivity.
Qed.

Lemma add_manager_fields date workers this :
  _date (add_manager date workers this) = _date this
  /\ config (add_manager date workers this) = config this
  /\ _isBackfilled (add_manager date workers this) = _isBackfilled this
  /\ effects (add_manager date workers this) = effects this.
Proof. repeat split. Qed.

(** Restoring a checkpoint gives the map one manager per manager of the
    checkpoint, in its order, each with the month and the workers of the
    checkpoint; the cursor is not touched. *)
Lemma restore_from this backup_managers :
  well_formed this ->
  let this' :=
    foldl (fun this manager =>
             add_manager (mb_date manager) (Some (mb_workers manager)) this)
          this backup_managers in
  well_formed this'
  /\ map assignment (managers_values this')
     = app (map assignment (managers_values this))
           (map (fun manager => (mb_date manager, Some (mb_workers manager)))
                backup_managers)
  /\ _date this' = _date this
  /\ _isBackfilled this' = _isBackfilled this
  /\ config this' = config this.
Proof.
  revert this. induction backup_managers as [|b bs IH]; intros this Hwf.
  - cbn [foldl map]. rewrite app_nil_r. auto.
  - cbn [foldl].
    destruct (IH _ (add_manager_well_formed (mb_date b)
                      (Some (mb_workers b)) this Hwf))
      as (Hwf' & Hv & Hd & Hb & Hc).
    split; [exact Hwf'|]. split; [|auto].
    rewrite Hv.
    destruct (add_manager_values (mb_date b) (Some (mb_workers b)) this Hwf)
      as (m & -> & Hm & _).
    rewrite map_app. cbn [map]. rewrite Hm, <- app_assoc. reflexivity.
Qed.

Lemma _restoreManagers_spec this backup_managers :
  let this' := _restoreManagers backup_managers this in
  map assignment (managers_values this')
  = map (fun manager => (mb_date manager, Some (mb_workers manager)))
        backup_managers
  /\ _date this' = _date this
  /\ _isBackfilled this' = _isBackfilled this
  /\ config this' = config this.
Proof.
  unfold _restoreManagers.
  destruct (restore_from (set_managers [] this) backup_managers
              (well_formed_empty (set_managers [] this) eq_refl))
    as (_ & Hv & Hd & Hb & Hc).
  cbn zeta in *. rewrite Hv, Hd, Hb, Hc. repeat split.
Qed.

(** The loop of [_createManagers] keeps the map well formed and never
    shrinks it; from its first round on, it adds at least one manager. *)
Lemma _createManagers_from_grows `{Api} (todo : nat) :
  forall (i : nat) (now : DateTime) (this : SyncService),
    well_formed this ->
    let this' := snd (_createManagers_from todo i now this) in
    well_formed this'
    /\ config this' = config this
    /\ (length (managers this) <= length (managers this'))%nat
    /\ (i = 0%nat -> (1 <= todo)%nat ->
        (length (managers this) < length (managers this'))%nat).
Proof.
  assert (Hadd : forall date this, well_formed this ->
            length (managers (add_manager date None this))
            = S (length (managers this))).
  { intros date this Hwf. rewrite (add_manager_managers _ _ _ Hwf).
    rewrite length_app. cbn [length]. lia. }
  induction todo as [|todo IH]; intros i now this Hwf.
  - cbn [_createManagers_from snd].
    refine (conj Hwf (conj eq_refl (conj _ _))); lia.
  - cbn [_createManagers_from]. destruct (i =? 0)%nat eqn:Hi.
    + destruct (IH (S i) now (add_manager (_date this) None this)
                  (add_manager_well_formed _ _ _ Hwf))
        as (Hwf' & Hc & Hl & _).
      cbn zeta in *. rewrite (Hadd _ _ Hwf) in Hl.
      refine (conj Hwf' (conj Hc (conj _ _))); lia.
    + apply Nat.eqb_neq in Hi.
      destruct (next_month this) as [r|e];
        [|cbn [snd]; refine (conj Hwf (conj eq_refl (conj _ _))); lia].
      destruct (isValidDate now (inr (inc_date r))); cbn [negb];
        [|cbn [snd]; refine (conj Hwf (conj eq_refl (conj _ _))); lia].
      assert (Hwf0 : well_formed (set_date (inc_date r) this)) by exact Hwf.
      destruct (IH (S i) now
                  (add_manager (_date (set_date (inc_date r) this)) None
                               (set_date (inc_date r) this))
                  (add_manager_well_formed _ _ _ Hwf0))
        as (Hwf' & Hc & Hl & _).
      cbn zeta in *. rewrite (Hadd _ _ Hwf0) in Hl.
      cbn [set_date managers] in Hl.
      refine (conj Hwf' (conj Hc (conj _ _))); lia.
Qed.

(** C3, as amended: [launch] is idempotent when a checkpoint is present;
    with none, a second call adds managers.  The identifiers drawn never
    collide.
    - If the configuration carries a checkpoint with managers, then both
      calls return, and after the second call the managers of the map
      have, in order, the months and the restored workers that they have
      after the first call (those of the checkpoint, under fresh
      identifiers); the cursor and the global flag are those left by the
      first call.
    - If it carries none, [Number(managerCount || 1)] is at least one and
      the map holds only managers that the service created (a new service
      has none), then the second call adds at least one manager to the map
      that the first call left, whatever that call did: the map is longer
      after the second call than after the first. *)
Theorem launch_twice `{Api} (now : DateTime) (this : SyncService) :
  let once := snd (launch now this) in
  let twice := snd (launch now once) in
  (forall backup_managers : list ManagerBackup,
     checkpoint_managers (config this) = Some backup_managers ->
     fst (launch now this) = Normal tt
     /\ fst (launch now once) = Normal tt
     /\ map assignment (managers_values twice)
        = map assignment (managers_values once)
     /\ map assignment (managers_values once)
        = map (fun manager => (mb_date manager, Some (mb_workers manager)))
              backup_managers
     /\ _date twice = _date once
     /\ _isBackfilled twice = _isBackfilled once)
  /\ (checkpoint_managers (config this) = None ->
      1 <= Number_or_1 (cfg_managerCount (config this)) ->
      well_formed this ->
      (length (managers once) < length (managers twice))%nat).
Proof.
  cbn zeta. split.
  - intros backup_managers Hb.
    assert (Hl : forall s, config s = config this ->
                   launch now s
                   = (Normal tt, _restoreManagers backup_managers s)).
    { intros s Hc. unfold launch. rewrite Hc, Hb. reflexivity. }
    rewrite (Hl this eq_refl). cbn [fst snd].
    destruct (_restoreManagers_spec this backup_managers)
      as (Hv1 & Hd1 & Hf1 & Hc1).
    cbn zeta in *. rewrite (Hl _ Hc1). cbn [fst snd].
    destruct (_restoreManagers_spec (_restoreManagers backup_managers this)
                backup_managers) as (Hv2 & Hd2 & Hf2 & Hc2).
    cbn zeta in *. rewrite Hv2, Hv1, Hd2, Hf2. repeat split.
  - intros Hb Hn Hwf.
    assert (Hl : forall s, config s = config this ->
                   launch now s
                   = _createManagers_from
                       (Z.to_nat (Number_or_1 (cfg_managerCount (config this))))
                       0 now s).
    { intros s Hc. unfold launch, _createManagers. rewrite Hc, Hb.
      reflexivity. }
    rewrite (Hl this eq_refl).
    destruct (_createManagers_from_grows
                (Z.to_nat (Number_or_1 (cfg_managerCount (config this))))
                0 now this Hwf) as (Hwf1 & Hc1 & _ & _).
    cbn zeta in *. rewrite (Hl _ Hc1).
    destruct (_createManagers_from_grows
                (Z.to_nat (Number_or_1 (cfg_managerCount (config this))))
                0 now _ Hwf1) as (_ & _ & _ & Hlt).
    apply Hlt; [reflexivity | lia].
Qed.

End Managers.

(** ** The validity check and the comparison of months *)

Section Dates.

Context `{Api}.

(** X1: the validity check is a comparison of calendar days.  Whatever the
    instant [now], a string or a [Date] passes [isValidDate] exactly when
    it is (read as) a valid date whose calendar day is not after the day
    of [now]; the time of day of either plays no part. *)
Theorem isValidDate_is_day_comparison
    (now : DateTime) (date : JsDate + string) :
  isValidDate now date
  = match (match date with inr s => parse_yyyy_MM_dd s | inl d => d end) with
    | Some d => negb (day_later d now)
    | None => false
    end.
Proof.
  unfold isValidDate.
  destruct (match date with inr s => parse_yyyy_MM_dd s | inl d => d end)
    as [d|]; [|reflexivity].
  unfold isPast, before, isEqual, startOfDay, day_later. cbn [year month day millis].
  destruct (millis now <? 0) eqn:Hm; lia.
Qed.

(** X2: a date that is valid stays valid: if it passes [isValidDate] at
    [now], it passes at every instant that is not before [now]. *)
Theorem isValidDate_stays_valid
    (now later : DateTime) (date : JsDate + string) :
  isValidDate now date = true ->
  before later now = false ->
  isValidDate later date = true.
Proof.
  unfold isValidDate.
  destruct (match date with inr s => parse_yyyy_MM_dd s | inl d => d end)
    as [d|]; [|discriminate].
  unfold isPast, before, isEqual, startOfDay. cbn [year month day millis].
  lia.
Qed.

(** X3: [isSameMonth] is a partial equivalence on date strings: it is
    symmetric and transitive, it holds of a string and itself exactly when
    the library reads the string, and it never holds when one of the two
    strings is not read. *)
Theorem isSameMonth_partial_equivalence (a b c : string) :
  isSameMonth a b = isSameMonth b a
  /\ (isSameMonth a b = true -> isSameMonth b c = true ->
      isSameMonth a c = true)
  /\ isSameMonth a a = isValid (parse_yyyy_MM_dd a)
  /\ (parse_yyyy_MM_dd a = None -> isSameMonth a b = false)
  /\ (parse_yyyy_MM_dd b = None -> isSameMonth a b = false).
Proof.
  unfold isSameMonth, _isSameMonth, isValid.
  destruct (parse_yyyy_MM_dd a) as [x|], (parse_yyyy_MM_dd b) as [y|],
    (parse_yyyy_MM_dd c) as [z|];
    repeat split; try reflexivity; try discriminate; try lia.
Qed.

(** [incrementDate] throws exactly when its string is not read. *)
Lemma incrementDate_throws_iff_unread (s : string) (days months hours : Z) :
  match parseISO s with
  | None =>
      incrementDate (inr s) days months hours
      = Throw (RangeError "Invalid time value")
  | Some d =>
      exists sum,
        add (Some d) days months hours = Some sum
        /\ incrementDate (inr s) days months hours
           = Normal {| inc_date := format_yyyy_MM_dd sum;
                       inc_timestamp := localTime sum |}
  end.
Proof.
  unfold incrementDate.
  destruct (parseISO s) as [d|]; [|reflexivity].
  cbn [add format]. eexists. split; reflexivity.
Qed.

End Dates.

(** ** Further properties of the review and of the launch *)

Section Orchestration.

Context `{Api} `{Uuidv4}.

Lemma next_month_unread (this : SyncService) :
  parseISO (substring 0 7 (_date this) ++ "-01") = None ->
  next_month this = Throw (RangeError "Invalid time value").
Proof.
  intros Hp. unfold next_month.
  pose proof (incrementDate_throws_iff_unread
                (substring 0 7 (_date this) ++ "-01") 0 1 0) as Hi.
  rewrite Hp in Hi. exact Hi.
Qed.

(** X4: the review of a manager when the cursor is not a date.  If the
    library does not read the month of the cursor, the review of a manager
    that is not backfilled throws a [RangeError]; the checkpoint has been
    written by then, and no manager, nor the cursor, nor the map has
    changed. *)
Theorem review_with_unread_cursor
    (manager : nat) (now : DateTime) (this : SyncService) (m : SyncManager) :
  store this !! manager = Some m ->
  isBackfilled m = false ->
  parseISO (substring 0 7 (_date this) ++ "-01") = None ->
  exists this' payload,
    _reviewManager manager now this
    = (Throw (RangeError "Invalid time value"), this')
    /\ effects this' = app (effects this) [BackupService_backup payload]
    /\ store this' = store this
    /\ _date this' = _date this
    /\ managers this' = managers this.
Proof.
  intros Hm Hb Hp. unfold _reviewManager, _continueWork. rewrite Hm, Hb.
  rewrite (next_month_unread (_backup this) Hp).
  eexists. eexists. split; [reflexivity|]. repeat split.
Qed.

(** X5: the checkpoint that a review writes is the checkpoint of the state
    before the review.  Whatever the review then does, the payload it
    hands to the checkpoint service carries the cursor and the managers'
    months as they were when the review began; a month that the same
    review assigns is not in it. *)
Theorem review_checkpoints_the_state_before
    (manager : nat) (now : DateTime) (this : SyncService) (m : SyncManager) :
  store this !! manager = Some m ->
  exists payload,
    effects (snd (_reviewManager manager now this))
    = app (effects this) [BackupService_backup payload]
    /\ bk_type payload = cfg_type (config this)
    /\ bd_date (bk_data payload) = _date this
    /\ bd_managers (bk_data payload)
       = Some (map backup_of_manager (managers_values this)).
Proof.
  intros Hm. unfold _reviewManager. rewrite Hm.
  destruct (isBackfilled m).
  - eexists. split; [reflexivity|]. repeat split.
  - unfold _continueWork.
    destruct (next_month (_backup this)) as [r|e].
    + destruct (isValidDate now (inr (inc_date r)));
        (eexists; split; [reflexivity|]; repeat split).
    + eexists. split; [reflexivity|]. repeat split.
Qed.

(** The loop of [_createManagers] touches neither the global flag, nor the
    configuration, nor the log of calls. *)
Lemma _createManagers_from_keeps (todo : nat) :
  forall (i : nat) (now : DateTime) (this : SyncService),
    let this' := snd (_createManagers_from todo i now this) in
    _isBackfilled this' = _isBackfilled this
    /\ config this' = config this
    /\ effects this' = effects this.
Proof.
  induction todo as [|todo IH]; intros i now this; [repeat split|].
  cbn [_createManagers_from].
  destruct (i =? 0)%nat.
  - apply (IH (S i) now (add_manager (_date this) None this)).
  - destruct (next_month this) as [r|e]; [|repeat split].
    destruct (isValidDate now (inr (inc_date r))); [|repeat split].
    cbn [negb].
    apply (IH (S i) now
             (add_manager (_date (set_date (inc_date r) this)) None
                          (set_date (inc_date r) this))).
Qed.

Lemma _restoreManagers_keeps (backup_managers : list ManagerBackup) :
  forall this : SyncService,
    let this' := _restoreManagers backup_managers this in
    _isBackfilled this' = _isBackfilled this
    /\ config this' = config this
    /\ effects this' = effects this
    /\ _date this' = _date this.
Proof.
  unfold _restoreManagers. intros this.
  change (_isBackfilled this) with (_isBackfilled (set_managers [] this)).
  change (config this) with (config (set_managers [] this)).
  change (effects this) with (effects (set_managers [] this)).
  change (_date this) with (_date (set_managers [] this)).
  generalize (set_managers [] this). clear this.
  induction backup_managers as [|b bs IH]; intros this; [repeat split|].
  cbn [foldl].
  apply (IH (add_manager (mb_date b) (Some (mb_workers b)) this)).
Qed.

Lemma _launchManagers_keeps (settled : list PromiseSettledResult) :
  forall this : SyncService,
    let this' := _launchManagers settled this in
    _isBackfilled this' = _isBackfilled this
    /\ store this' = store this
    /\ _date this' = _date this
    /\ effects this' = effects this
    /\ config this' = config this.
Proof.
  induction settled as [|p settled IH]; intros this; [repeat split|].
  cbn [_launchManagers foldl].
  apply (IH (_deleteManager (settled_value p) this)).
Qed.

(** X6: the global flag is never revoked.  Once the service has recorded
    that it is backfilled, no review, no launch, no join of the managers
    and no write of a page resets the flag. *)
Theorem isBackfilled_is_never_revoked
    (now : DateTime) (this : SyncService) (manager : nat)
    (settled : list PromiseSettledResult)
    (data : gmap string (list SalesSchema)) :
  _isBackfilled this = true ->
  _isBackfilled (snd (_reviewManager manager now this)) = true
  /\ _isBackfilled (snd (launch now this)) = true
  /\ _isBackfilled (_launchManagers settled this) = true
  /\ _isBackfilled (snd (_insert data this)) = true.
Proof.
  intros Hf. split; [|split; [|split]].
  - unfold _reviewManager.
    destruct (store this !! manager) as [m|]; [|exact Hf].
    destruct (isBackfilled m); [reflexivity|].
    unfold _continueWork.
    destruct (next_month (_backup this)) as [r|e]; [|exact Hf].
    destruct (isValidDate now (inr (inc_date r))); exact Hf.
  - unfold launch. destruct (checkpoint_managers (config this)) as [bms|].
    + cbn [snd].
      destruct (_restoreManagers_keeps bms this) as (-> & _). exact Hf.
    + unfold _createManagers.
      destruct (_createManagers_from_keeps
                  (Z.to_nat (Number_or_1 (cfg_managerCount (config this))))
                  0 now this) as (-> & _).
      exact Hf.
  - destruct (_launchManagers_keeps settled this) as (-> & _). exact Hf.
  - unfold _insert.
    destruct (_parse (data !! cfg_type (config this)) this) as [rows|e];
      [|exact Hf].
    destruct (_parse _ _) as [rows'|e]; exact Hf.
Qed.

(** X7: the launch from a start date that is not a date.  With no
    checkpoint and a start date whose month the library does not read, the
    first manager is created all the same and holds the start date as it
    is written; the launch returns if one manager was asked for, and
    throws a [RangeError] after the first manager if more were. *)
Theorem launch_with_unread_start_date (now : DateTime) (cfg : SyncerConfig) :
  checkpoint_managers cfg = None ->
  parseISO (substring 0 7 (cfg_date cfg) ++ "-01") = None ->
  let count := Z.to_nat (Number_or_1 (cfg_managerCount cfg)) in
  exists this',
    assigned_dates this' = [ cfg_date cfg ]
    /\ _date this' = cfg_date cfg
    /\ (count = 1%nat -> launch now (new_SyncService cfg) = (Normal tt, this'))
    /\ ((2 <= count)%nat ->
        launch now (new_SyncService cfg)
        = (Throw (RangeError "Invalid time value"), this')).
Proof.
  intros Hb Hp count.
  exists (add_manager (cfg_date cfg) None (new_SyncService cfg)).
  split; [reflexivity|]. split; [reflexivity|].
  unfold launch, _createManagers. cbn [new_SyncService config].
  rewrite Hb. fold count. split.
  - intros ->. reflexivity.
  - intros Hc. destruct count as [|[|n]]; [lia|lia|].
    cbn [_createManagers_from Nat.eqb].
    rewrite (next_month_unread
               (add_manager (_date (new_SyncService cfg)) None
                            (new_SyncService cfg)) Hp).
    reflexivity.
Qed.

(** X8: a checkpoint with no manager.  When the configuration carries a
    checkpoint whose list of managers is empty, [launch] creates no manager
    at all, whatever the manager count, and leaves the cursor at the
    configured start date. *)
Theorem launch_with_empty_checkpoint (now : DateTime) (cfg : SyncerConfig) :
  checkpoint_managers cfg = Some [] ->
  exists this',
    launch now (new_SyncService cfg) = (Normal tt, this')
    /\ managers this' = []
    /\ _date this' = cfg_date cfg.
Proof.
  intros Hb. unfold launch. cbn [new_SyncService config]. rewrite Hb.
  eexists. split; [reflexivity|]. split; reflexivity.
Qed.

End Orchestration.

(** ** Further properties of the join and of the checkpoint *)

Lemma Map_delete_keys {V : Type} (k : option string) (m : list (string * V)) :
  map fst (Map_delete k m)
  = List.filter (fun key => negb (includes (option_list k) key)) (map fst m).
Proof.
  destruct k as [k|]; cbn [Map_delete option_list].
  - induction m as [|[k' v] m IH]; [reflexivity|].
    unfold includes in *. change (option_list (Some k)) with [k] in *.
    cbn [List.filter map fst existsb] in *.
    rewrite orb_false_r, (String.eqb_sym k' k).
    destruct (String.eqb k k'); cbn [negb map fst]; now rewrite IH.
  - induction m as [|[k' v] m IH]; [reflexivity|].
    unfold includes in *. change (@option_list string None) with (@nil string) in *.
    cbn [List.filter map fst existsb negb] in *.
    f_equal. exact IH.
Qed.

Lemma includes_app (xs ys : list string) (x : string) :
  includes (app xs ys) x = includes xs x || includes ys x.
Proof. unfold includes. apply existsb_app. Qed.

Lemma filter_filter {A : Type} (f g : A -> bool) (l : list A) :
  List.filter f (List.filter g l) = List.filter (fun x => g x && f x) l.
Proof.
  induction l as [|x l IH]; [reflexivity|]. cbn [List.filter].
  destruct (g x); cbn [List.filter andb]; [destruct (f x)|]; now rewrite IH.
Qed.

(** X9: what the join removes.  After the join of the managers, the map
    holds, in their order, exactly the managers whose identifier is not
    the value of a fulfilled result; the manager objects, the cursor, the
    global flag and the log of calls are untouched, so the join writes no
    checkpoint. *)
Theorem join_removes_the_fulfilled
    (settled : list PromiseSettledResult) (this : SyncService) :
  map fst (managers (_launchManagers settled this))
  = List.filter (fun id => negb (includes (settled_ids settled) id))
                (map fst (managers this))
  /\ store (_launchManagers settled this) = store this
  /\ _date (_launchManagers settled this) = _date this
  /\ _isBackfilled (_launchManagers settled this) = _isBackfilled this
  /\ effects (_launchManagers settled this) = effects this.
Proof.
  split.
  - revert this. induction settled as [|p settled IH]; intros this.
    + cbn [_launchManagers foldl settled_ids omap list_omap includes existsb negb].
      induction (map fst (managers this)) as [|k ks IHk]; [reflexivity|].
      cbn [List.filter]. now rewrite <- IHk.
    + change (_launchManagers (p :: settled) this)
        with (_launchManagers settled (_deleteManager (settled_value p) this)).
      rewrite IH. cbn [_deleteManager set_managers managers].
      rewrite Map_delete_keys, filter_filter.
      apply filter_ext. intros id.
      assert (Hs : settled_ids (p :: settled)
                   = app (option_list (settled_value p)) (settled_ids settled))
        by (unfold settled_ids; cbn [omap list_omap];
            destruct (settled_value p); reflexivity).
      rewrite Hs, includes_app, negb_orb. reflexivity.
  - destruct (_launchManagers_keeps settled this) as (Hf & Hs & Hd & He & _).
    auto.
Qed.

Section Checkpoint.

Context `{Uuidv4}.
Hypothesis uuid_inj : forall a b : nat, uuid a = uuid b -> a = b.


End Checkpoint.

(** ** Further properties of the write path and of the request *)

(** The two calls of [_insert] on a page of sales. *)
Lemma _insert_sales (data : gmap string (list SalesSchema))
    (this : SyncService) (sales : list SalesSchema) :
  cfg_type (config this) = "sales" ->
  data !! "sales" = Some sales ->
  _insert data this
  = (Normal tt,
     perform
       (InsertionService_delete "sales"
          (map sale_row_id
               (List.filter isDeleted
                  (allowed (cfg_contracts (config this)) sales))))
       (perform
          (InsertionService_upsert "sales"
             (map (fun sale => delete_isDeleted (format_sale sale))
                  (allowed (cfg_contracts (config this)) sales)))
          this)).
Proof.
  intros Ht Hd. unfold _insert.
  rewrite Ht, Hd, (_parse_sales this sales Ht).
  change (config (perform ?e this)) with (config this).
  rewrite Ht, Hd, (_parse_sales (perform _ this) sales Ht).
  change (config (perform ?e this)) with (config this).
  rewrite filter_flagged_format, !map_map. reflexivity.
Qed.

(** X11: whatever [_insert] deletes, it has just upserted.  For a page of
    sales, every identifier in the delete call of [_insert] is the
    identifier of a row of the upsert call that precedes it, and the upsert
    call has one row for each sale that the allow-list keeps. *)
Theorem insert_deletes_only_what_it_upserted
    (data : gmap string (list SalesSchema)) (this : SyncService)
    (sales : list SalesSchema) :
  cfg_type (config this) = "sales" ->
  data !! "sales" = Some sales ->
  exists upserted deleted,
    effects (snd (_insert data this))
    = app (effects this)
          [ InsertionService_upsert "sales" upserted;
            InsertionService_delete "sales" deleted ]
    /\ (forall id, In id deleted -> In id (map row_id upserted))
    /\ (length deleted <= length upserted)%nat
    /\ (length upserted <= length sales)%nat.
Proof.
  intros Ht Hd. rewrite (_insert_sales data this sales Ht Hd).
  eexists. eexists. split.
  { cbn [snd perform effects]. rewrite <- app_assoc. reflexivity. }
  set (rows := allowed (cfg_contracts (config this)) sales).
  assert (Hrows : (length rows <= length sales)%nat).
  { unfold rows, allowed.
    destruct (cfg_contracts (config this)) as [[|c cs]|]; try lia.
    apply filter_length_le. }
  split; [|split].
  - intros id (sale & <- & [Hin _]%filter_In)%in_map_iff.
    rewrite map_map. apply in_map_iff. exists sale. split; [reflexivity|exact Hin].
  - rewrite !length_map. apply filter_length_le.
  - rewrite length_map. exact Hrows.
Qed.

(** X12: the allow-list ignores the case of the letters.  For a service of
    the [sales] type, [_parse] returns a row for exactly the sales of the
    page that the allow-list keeps: every sale when the list is absent or
    empty, and otherwise the sales whose contract equals an entry of the
    list once both are put in lower case. *)
Theorem parse_keeps_the_allowed_contracts
    (this : SyncService) (sales : list SalesSchema) :
  cfg_type (config this) = "sales" ->
  exists kept,
    _parse (Some sales) this = Normal (map format_sale kept)
    /\ forall sale,
         In sale kept
         <-> In sale sales
             /\ (default [] (cfg_contracts (config this)) = []
                 \/ exists c,
                      In c (default [] (cfg_contracts (config this)))
                      /\ toLowerCase c
                         = toLowerCase (token_contract (token sale))).
Proof.
  intros Ht. exists (allowed (cfg_contracts (config this)) sales).
  split; [apply (_parse_sales this sales Ht)|].
  intros sale. unfold allowed.
  destruct (cfg_contracts (config this)) as [[|c cs]|]; cbn [default].
  - split; [intros Hin; split; [exact Hin | left; reflexivity] | intros [Hin _]; exact Hin].
  - rewrite filter_In. unfold in_contracts, includes.
    rewrite existsb_exists.
    split.
    + intros [Hin (x & Hx & He)]. split; [exact Hin|]. right.
      apply in_map_iff in Hx as (c' & <- & Hc').
      apply String.eqb_eq in He. exists c'. split; [exact Hc' | congruence].
    + intros [Hin [Hn | (c' & Hc' & He)]]; [discriminate|].
      split; [exact Hin|]. exists (toLowerCase c'). split.
      * apply in_map. exact Hc'.
      * apply String.eqb_eq. congruence.
  - split; [intros Hin; split; [exact Hin | left; reflexivity] | intros [Hin _]; exact Hin].
Qed.

(** X13: the count of a page and the rows parsed from it.  For a service
    of the [sales] type and a page that carries sales, [_count] is the
    number of sales of the page, and the rows that [_parse] makes of what
    [_format] takes from the page are never more than that; they are as
    many when no allow-list is configured.  On a page that does not carry
    the key, [_count] throws. *)
Theorem count_bounds_the_parsed_rows
    (data : gmap string (list SalesSchema)) (this : SyncService) :
  cfg_type (config this) = "sales" ->
  match data !! "sales" with
  | Some sales =>
      _count data this = Normal (Z.of_nat (length sales))
      /\ exists rows,
           _parse (_format data this) this = Normal rows
           /\ (length rows <= length sales)%nat
           /\ (default [] (cfg_contracts (config this)) = [] ->
               length rows = length sales)
  | None => exists e, _count data this = Throw e
  end.
Proof.
  intros Ht. unfold _count, _format. rewrite Ht.
  destruct (data !! "sales") as [sales|]; [|eexists; reflexivity].
  split; [reflexivity|].
  rewrite (_parse_sales this sales Ht). eexists. split; [reflexivity|].
  rewrite length_map. unfold allowed.
  destruct (cfg_contracts (config this)) as [[|c cs]|]; cbn [default].
  - split; [lia | reflexivity].
  - split; [apply filter_length_le | discriminate].
  - split; [lia | reflexivity].
Qed.

(** X14: a service of a type without handlers.  When the type of the
    service is neither [sales] nor the name of a member that the tables
    inherit from [Object.prototype], the tables have nothing under it:
    [_parse] throws a [TypeError], [_insert] throws it before any call to
    the insertion service, and [_request] throws it whatever the HTTP
    layer would answer. *)
Theorem unsupported_type_throws {Body Other : Type}
    (this : SyncService) (payload : option (list SalesSchema))
    (data : gmap string (list SalesSchema))
    (axios_get : string -> string -> AxiosOutcome Body Other)
    (request : Request) :
  cfg_type (config this) <> "sales" ->
  inherited (cfg_type (config this)) = false ->
  (exists msg, _parse payload this = Throw (TypeError msg))
  /\ (exists msg, _insert data this = (Throw (TypeError msg), this))
  /\ (exists msg, _request axios_get request this = Throw (TypeError msg)).
Proof.
  intros Ht _. apply String.eqb_neq in Ht.
  assert (Hp : forall payload,
             exists msg, _parse payload this = Throw (TypeError msg)).
  { intros p. unfold _parse, PARSER_METHODS. rewrite Ht. eexists. reflexivity. }
  split; [apply Hp|]. split.
  - unfold _insert. destruct (Hp (data !! cfg_type (config this))) as [e ->].
    exists e. reflexivity.
  - unfold _request, REQUEST_METHODS. rewrite Ht. eexists. reflexivity.
Qed.

(** X15: what [_request] asks and answers.  For a service of the [sales]
    type, [_request] never throws; it depends on the HTTP layer only
    through the answer to one call, made with the API key of the service
    to the URL formed of the base of the chain, the path [/sales/v4], a
    question mark and the query of [createQuery] for the continuation
    token, the allow-list and the window of the request.  For a chain that
    has no base and is not the name of a member that the table inherits
    from [Object.prototype], the URL starts with the word [undefined]. *)
Theorem request_asks_one_url {Body Other : Type}
    (axios_get : string -> string -> AxiosOutcome Body Other)
    (request : Request) (this : SyncService) :
  cfg_type (config this) = "sales" ->
  inherited (cfg_chain (config this)) = false ->
  let url :=
    match URL_BASES (cfg_chain (config this)) with
    | Some base => base
    | None => "undefined"
    end
    ++ "/sales/v4?"
    ++ createQuery (req_continuation request) (cfg_contracts (config this))
                   (req_startTimestamp request) (req_endTimestamp request) in
  _request axios_get request this
  = Normal (answer (axios_get url (_apiKey this))).
Proof.
  intros Ht _. unfold _request, REQUEST_METHODS, URL_PATHS. rewrite Ht.
  cbn [String.eqb Ascii.eqb Bool.eqb template].
  change ("sales" =? "sales")%string with true. cbv iota.
  unfold REQUEST_METHODS_sales, answer, template.
  assert (Hu : forall base q : string,
             (base ++ "/sales/v4") ++ "?" ++ q = base ++ "/sales/v4?" ++ q).
  { intros base q. rewrite append_assoc. reflexivity. }
  rewrite Hu.
  destruct (URL_BASES (cfg_chain (config this)));
    destruct (REQUEST_METHODS_sales_try _); reflexivity.
Qed.

(** X16: when a response counts as a success.  The response of the request
    method passes [isSuccessResponse] exactly when the HTTP call resolved
    with the status 200 or was rejected with an Axios error that carries a
    response of status 200; its data is then the body of that response,
    never the generic failure payload. *)
Theorem success_response_carries_the_body {Body Other : Type}
    (got : AxiosOutcome Body Other) :
  isSuccessResponse (answer got)
  = match got with
    | Resolved r => res_status r =? 200
    | RejectedAxios {| err_response := Some r |} => res_status r =? 200
    | _ => false
    end
  /\ (isSuccessResponse (answer got) = true ->
      match got with
      | Resolved r | RejectedAxios {| err_response := Some r |} =>
          answer got = mkApiResponse 200 (Data (res_data r))
      | _ => False
      end).
Proof.
  unfold isSuccessResponse, answer, REQUEST_METHODS_sales_try,
    REQUEST_METHODS_sales_catch.
  destruct got as [r|[[r|]]|e]; cbn [isAxiosError err_response status].
  - destruct (res_status r =? 200) eqn:Hs; cbn [negb status].
    + split; [exact Hs|]. intros _. apply Z.eqb_eq in Hs. now rewrite Hs.
    + split; [reflexivity | discriminate].
  - destruct (res_status r =? 0) eqn:H0.
    + apply Z.eqb_eq in H0. rewrite H0. split; [reflexivity | discriminate].
    + split; [reflexivity|]. intros Hs. apply Z.eqb_eq in Hs. now rewrite Hs.
  - split; [reflexivity | discriminate].
  - split; [reflexivity | discriminate].
Qed.

(** ** The map stays keyed by the managers' identifiers *)

Section Keys.

Context `{Uuidv4}.
Hypothesis uuid_inj : forall a b : nat, uuid a = uuid b -> a = b.

Lemma Map_has_In {V : Type} (k : string) (m : list (string * V)) :
  Map_has k m = false -> ~ In k (map fst m).
Proof.
  unfold Map_has. intros Hh ([k' v] & Hk & Hin)%in_map_iff.
  cbn [fst] in Hk. subst k'.
  assert (He : existsb (fun kv : string * V => String.eqb k (fst kv)) m = true).
  { apply existsb_exists. exists (k, v). split; [exact Hin|].
    apply String.eqb_refl. }
  congruence.
Qed.

Lemma add_manager_keyed date workers this :
  well_formed this -> keyed_by_id this ->
  keyed_by_id (add_manager date workers this).
Proof.
  intros Hwf [Hnd Hk]. split.
  - rewrite (add_manager_managers uuid_inj _ _ _ Hwf), map_app. cbn [map fst].
    apply NoDup_app. split; [exact Hnd|]. split.
    + intros k Hin [<-|[]]%list_elem_of_In.
      apply list_elem_of_In in Hin.
      exact (Map_has_In _ _ (fresh_id uuid_inj this Hwf) Hin).
    + apply NoDup_singleton.
  - intros k a. rewrite (add_manager_managers uuid_inj _ _ _ Hwf).
    cbn [add_manager store].
    intros [Hin | [[= <- <-]|[]]]%in_app_or.
    + destruct (Hk k a Hin) as (m & Hm & Hid). exists m. split; [|exact Hid].
      rewrite lookup_app_l; [exact Hm|]. exact (proj1 (Hwf k a Hin)).
    + eexists. split; [apply list_lookup_middle; reflexivity | reflexivity].
Qed.

Lemma set_date_invariants (d : string) (this : SyncService) :
  (well_formed this -> well_formed (set_date d this))
  /\ (keyed_by_id this -> keyed_by_id (set_date d this)).
Proof. split; intros Hi; exact Hi. Qed.

Lemma _createManagers_from_keyed `{Api} (todo : nat) :
  forall (i : nat) (now : DateTime) (this : SyncService),
    well_formed this -> keyed_by_id this ->
    well_formed (snd (_createManagers_from todo i now this))
    /\ keyed_by_id (snd (_createManagers_from todo i now this)).
Proof.
  induction todo as [|todo IH]; intros i now this Hwf Hk; [split; assumption|].
  cbn [_createManagers_from]. destruct (i =? 0)%nat.
  - apply IH; [apply add_manager_well_formed | apply add_manager_keyed];
      assumption.
  - destruct (next_month this) as [r|e]; [|split; assumption].
    destruct (isValidDate now (inr (inc_date r))); [|split; assumption].
    cbn [negb].
    apply IH; [apply add_manager_well_formed | apply add_manager_keyed];
      assumption.
Qed.

Lemma restore_keyed (backup_managers : list ManagerBackup) :
  forall this : SyncService,
    well_formed this -> keyed_by_id this ->
    let this' :=
      foldl (fun this manager =>
               add_manager (mb_date manager) (Some (mb_workers manager)) this)
            this backup_managers in
    well_formed this' /\ keyed_by_id this'.
Proof.
  induction backup_managers as [|b bs IH]; intros this Hwf Hk;
    [split; assumption|].
  cbn [foldl].
  apply IH; [apply add_manager_well_formed | apply add_manager_keyed];
    assumption.
Qed.

Lemma keyed_by_id_empty (this : SyncService) :
  managers this = [] -> keyed_by_id this.
Proof.
  intros Hm. unfold keyed_by_id. rewrite Hm. split; [apply NoDup_nil_2|].
  intros k a [].
Qed.

Lemma alter_date_invariants (d : string) (manager : nat) (this : SyncService) :
  well_formed this -> keyed_by_id this ->
  well_formed (set_store (alter (set_config_date d) manager (store this)) this)
  /\ keyed_by_id
       (set_store (alter (set_config_date d) manager (store this)) this).
Proof.
  intros Hwf [Hnd Hk]. split.
  - intros k a Hin. cbn [set_store store]. rewrite length_alter.
    exact (Hwf k a Hin).
  - split; [exact Hnd|]. intros k a Hin. cbn [set_store store].
    destruct (Hk k a Hin) as (m & Hm & Hid).
    destruct (Nat.eq_dec manager a) as [->|Hne].
    + exists (set_config_date d m). rewrite list_lookup_alter_eq, Hm.
      split; [reflexivity | exact Hid].
    + exists m. rewrite list_lookup_alter_ne by exact Hne.
      split; [exact Hm | exact Hid].
Qed.

Lemma _deleteManager_invariants (id : option string) (this : SyncService) :
  well_formed this -> keyed_by_id this ->
  well_formed (_deleteManager id this) /\ keyed_by_id (_deleteManager id this).
Proof.
  intros Hwf [Hnd Hk].
  assert (Hsub : forall k a, In (k, a) (Map_delete id (managers this)) ->
                   In (k, a) (managers this)).
  { intros k a. destruct id as [id|]; cbn [Map_delete]; [|auto].
    intros [Hin _]%filter_In. exact Hin. }
  split.
  - intros k a Hin. exact (Hwf k a (Hsub k a Hin)).
  - split.
    + cbn [_deleteManager set_managers managers]. rewrite Map_delete_keys.
      apply NoDup_ListNoDup, List.NoDup_filter, NoDup_ListNoDup. exact Hnd.
    + intros k a Hin. exact (Hk k a (Hsub k a Hin)).
Qed.

(** X23: the map stays keyed by the managers' own identifiers.  A new
    service has the property, and if the identifiers drawn never collide,
    every launch, every review and every join keeps it: each entry of the
    map leads to a manager object that carries the key of the entry as
    its identifier, no two entries share a key, and every key was drawn
    from the generator. *)
Theorem map_stays_keyed_by_id `{Api}
    (now : DateTime) (this : SyncService) (manager : nat)
    (settled : list PromiseSettledResult) :
  well_formed this -> keyed_by_id this ->
  (well_formed (snd (launch now this))
   /\ keyed_by_id (snd (launch now this)))
  /\ (well_formed (snd (_reviewManager manager now this))
      /\ keyed_by_id (snd (_reviewManager manager now this)))
  /\ (well_formed (_launchManagers settled this)
      /\ keyed_by_id (_launchManagers settled this)).
Proof.
  intros Hwf Hk. split; [|split].
  - unfold launch. destruct (checkpoint_managers (config this)) as [bms|].
    + cbn [snd]. unfold _restoreManagers.
      apply restore_keyed;
        [apply well_formed_empty | apply keyed_by_id_empty]; reflexivity.
    + apply _createManagers_from_keyed; assumption.
  - unfold _reviewManager.
    destruct (store this !! manager) as [m|]; [|split; assumption].
    destruct (isBackfilled m); [split; assumption|].
    unfold _continueWork.
    destruct (next_month (_backup this)) as [r|e]; [|split; assumption].
    destruct (isValidDate now (inr (inc_date r))); [|split; assumption].
    cbn [snd].
    exact (alter_date_invariants (inc_date r) manager
             (set_date (inc_date r) (_backup this)) Hwf Hk).
  - revert this Hwf Hk. induction settled as [|p settled IH];
      intros this Hwf Hk; [split; assumption|].
    cbn [_launchManagers foldl].
    destruct (_deleteManager_invariants (settled_value p) this Hwf Hk)
      as [Hwf' Hk'].
    exact (IH _ Hwf' Hk').
Qed.

End Keys.

(** ** The sample generator never collides *)

Lemma Z_toString_inj (a b : Z) : Z_toString a = Z_toString b -> a = b.
Proof.
  unfold Z_toString. intros Hs. apply DecimalZ.to_int_inj.
  assert (Hn : forall z, Z.to_int z <> Decimal.Pos Decimal.Nil
                         /\ Z.to_int z <> Decimal.Neg Decimal.Nil).
  { intros [|p|p]; split; try discriminate; cbn; intros [= Hp];
      exact (DecimalPos.Unsigned.to_uint_nonnil p Hp). }
  assert (Hi : Some (Z.to_int a) = Some (Z.to_int b)).
  { rewrite <- (NilZero.isi (Z.to_int a)) by apply Hn.
    rewrite <- (NilZero.isi (Z.to_int b)) by apply Hn.
    now rewrite Hs. }
  now injection Hi.
Qed.

Lemma Counter_uuid_inj (a b : nat) :
  @uuid Counter.uuidv4 a = @uuid Counter.uuidv4 b -> a = b.
Proof. intros Hu. apply Z_toString_inj in Hu. lia. Qed.

(** ** The model of the date strings *)

Import DateFns.Model.

Lemma forall_from_spec check n lo :
  forall_from check n lo = true ->
  forall z, lo <= z < lo + Z.of_nat n -> check z = true.
Proof.
  revert lo. induction n as [|n IH]; intros lo Hf z Hz; [lia|].
  cbn [forall_from] in Hf. apply andb_true_iff in Hf as [Hlo Hf].
  destruct (Z.eq_dec z lo) as [->|Hne]; [exact Hlo|].
  apply (IH (lo + 1) Hf). lia.
Qed.

Lemma DateTime_eqb_eq a b : DateTime_eqb a b = true -> a = Some b.
Proof.
  destruct a as [[y m d t]|]; [|discriminate]. destruct b as [y' m' d' t'].
  unfold DateTime_eqb, isEqual. cbn. intros Hb.
  repeat f_equal; lia.
Qed.

Lemma all_months_checked :
  forall_from (fun y => forall_from (month_checks y) 12 1)
              (Z.to_nat 9999) 1 = true.
Proof. vm_compute. reflexivity. Qed.

Lemma month_checked (y m : Z) :
  1 <= y <= 9999 -> 1 <= m <= 12 ->
  String.length (year_month y m) = 7%nat
  /\ parseISO_calendar (year_month y m ++ "-01") = Some (mkDateTime y m 1 0)
  /\ parse_ymd (year_month y m ++ "-01") = Some (mkDateTime y m 1 0).
Proof.
  intros Hy Hm.
  pose proof (forall_from_spec _ _ _ all_months_checked y ltac:(lia)) as Hc.
  cbn beta in Hc.
  pose proof (forall_from_spec _ _ _ Hc m ltac:(lia)) as Hc'.
  unfold month_checks in Hc'.
  apply andb_true_iff in Hc' as [[Hl Hi]%andb_true_iff Hp].
  apply Nat.eqb_eq in Hl.
  split; [exact Hl|]. split; apply DateTime_eqb_eq; assumption.
Qed.

(** The year 10000 is written with five digits, which [parse] does not
    read. *)
Lemma year_10000_unread (m : Z) :
  1 <= m <= 12 -> parse_ymd (format_ymd (mkDateTime 10000 m 1 0)) = None.
Proof.
  intros Hm.
  assert (Hc : forall_from
                 (fun m => negb (isValid (parse_ymd
                                 (format_ymd (mkDateTime 10000 m 1 0)))))
                 12 1 = true) by (vm_compute; reflexivity).
  pose proof (forall_from_spec _ _ _ Hc m ltac:(lia)) as Hm'.
  cbn beta in Hm'. destruct (parse_ymd _); [discriminate|reflexivity].
Qed.

Lemma format_ymd_split (d : DateTime) :
  0 < year d ->
  format_ymd d
  = year_month (year d) (month d) ++ "-" ++ addLeadingZeros (day d) 2.
Proof.
  intros Hy. unfold format_ymd, year_month.
  destruct (0 <? year d) eqn:Hp; [|lia].
  rewrite !append_assoc. reflexivity.
Qed.

Lemma substring_prefix (a b : string) :
  substring 0 (String.length a) (a ++ b) = a.
Proof.
  induction a as [|c a IH]; [destruct b; reflexivity|].
  change (String c (substring 0 (String.length a) (a ++ b)) = String c a).
  now rewrite IH.
Qed.

(** The month of a formatted date: its first seven characters. *)
Lemma substring_format_ymd (d : DateTime) :
  1 <= year d <= 9999 -> 1 <= month d <= 12 ->
  substring 0 7 (format_ymd d) = year_month (year d) (month d).
Proof.
  intros Hy Hm. rewrite format_ymd_split by lia.
  destruct (month_checked _ _ Hy Hm) as (Hl & _).
  rewrite <- Hl at 1. apply substring_prefix.
Qed.

(** *** Months by their index *)

Lemma first_of_month_index (y m : Z) :
  1 <= m <= 12 -> mkDateTime y m 1 0 = first_of_month (12 * y + m - 1).
Proof.
  intros Hm. unfold first_of_month.
  assert ((12 * y + m - 1) / 12 = y) as ->
      by (Z.div_mod_to_equations; lia).
  assert ((12 * y + m - 1) mod 12 = m - 1) as ->
      by (Z.div_mod_to_equations; lia).
  f_equal. lia.
Qed.

Lemma getDaysInMonth_bounds (y m : Z) : 28 <= getDaysInMonth y m <= 31.
Proof.
  unfold getDaysInMonth.
  destruct (m =? 2); [destruct (isLeapYear y); lia|].
  destruct ((m =? 4) || (m =? 6) || (m =? 9) || (m =? 11)); lia.
Qed.

Lemma addMonths_first_of_month (k n : Z) :
  addMonths (first_of_month k) n = first_of_month (k + n).
Proof.
  unfold addMonths, first_of_month. cbn [year month day millis].
  assert (k / 12 * 12 + (k mod 12 + 1 - 1) + n = k + n) as ->
      by (pose proof (Z.div_mod k 12); lia).
  pose proof (getDaysInMonth_bounds ((k + n) / 12) ((k + n) mod 12 + 1)) as Hb.
  destruct (getDaysInMonth _ _ <=? 1) eqn:Hd; [lia|reflexivity].
Qed.

Lemma first_of_month_bounds (k : Z) :
  12 <= k < 120000 ->
  1 <= year (first_of_month k) <= 9999
  /\ 1 <= month (first_of_month k) <= 12.
Proof.
  intros Hk. cbn [first_of_month year month].
  pose proof (Z.div_mod k 12). pose proof (Z.mod_pos_bound k 12). lia.
Qed.

Lemma format_first_of_month (k : Z) :
  12 <= k < 120000 ->
  format_ymd (first_of_month k)
  = year_month (k / 12) (k mod 12 + 1) ++ "-01".
Proof.
  intros Hk. destruct (first_of_month_bounds k Hk) as [Hy _].
  rewrite format_ymd_split by lia. reflexivity.
Qed.

(** The validity check on the first day of a month. *)
Lemma isValidDate_first_of_month (now : DateTime) (k : Z) :
  12 <= k < 120000 ->
  @isValidDate api now (inr (format_ymd (first_of_month k)))
  = isPast now (first_of_month k)
    || isEqual (first_of_month k) (startOfDay now).
Proof.
  intros Hk. destruct (first_of_month_bounds k Hk) as [Hy Hm].
  unfold isValidDate. cbn [parse_yyyy_MM_dd api].
  rewrite (format_first_of_month k Hk).
  destruct (month_checked (k / 12) (k mod 12 + 1) Hy Hm) as (_ & _ & ->).
  reflexivity.
Qed.

Lemma isValidDate_year_10000 (now : DateTime) :
  @isValidDate api now (inr (format_ymd (first_of_month 120000))) = false.
Proof.
  unfold isValidDate. cbn [parse_yyyy_MM_dd api].
  change (first_of_month 120000) with (mkDateTime 10000 1 1 0).
  rewrite year_10000_unread by lia. reflexivity.
Qed.

(** ** The creation of the managers *)

Section Creation.

Context `{Uuidv4}.
Hypothesis uuid_inj : forall a b : nat, uuid a = uuid b -> a = b.

Variable now : DateTime.

(** The month after a cursor that lies in the month of index [k]. *)
Lemma next_month_of_index (this : SyncService) (k : Z) :
  12 <= k < 120000 ->
  substring 0 7 (_date this) = year_month (k / 12) (k mod 12 + 1) ->
  exists r,
    @next_month api this = Normal r
    /\ inc_date r = format_ymd (first_of_month (k + 1)).
Proof.
  intros Hk Hs. destruct (first_of_month_bounds k Hk) as [Hy Hm].
  unfold next_month, incrementDate. rewrite Hs.
  cbn [parseISO api format format_yyyy_MM_dd].
  destruct (month_checked (k / 12) (k mod 12 + 1) Hy Hm) as (_ & -> & _).
  change (mkDateTime (k / 12) (k mod 12 + 1) 1 0) with (first_of_month k).
  unfold add. cbn [Z.eqb Z.mul]. rewrite addMonths_first_of_month.
  eexists. split; reflexivity.
Qed.

Lemma assigned_dates_add_manager date workers this :
  well_formed this ->
  assigned_dates (add_manager date workers this)
  = app (assigned_dates this) [date].
Proof.
  intros Hwf. unfold assigned_dates.
  destruct (add_manager_values uuid_inj date workers this Hwf)
    as (m & -> & Hm & _).
  rewrite map_app. cbn [map]. unfold manager_date.
  unfold assignment in Hm. injection Hm as -> _. reflexivity.
Qed.

(** The loop of [_createManagers] after its first round, from a cursor in
    the month of index [k]: it creates [created] managers, which get the
    first days of the months [k + 1], ..., [k + created]; these pass the
    validity check, and the loop stops before the number of rounds only
    at a month that does not pass it. *)
Lemma _createManagers_from_months (todo : nat) :
  forall (i : nat) (this : SyncService) (k : Z),
    (1 <= i)%nat ->
    12 <= k < 120000 ->
    substring 0 7 (_date this) = year_month (k / 12) (k mod 12 + 1) ->
    well_formed this ->
    exists this' created,
      @_createManagers_from api _ todo i now this = (Normal tt, this')
      /\ (created <= todo)%nat
      /\ assigned_dates this'
         = app (assigned_dates this)
               (map (fun j => format_ymd (first_of_month (k + Z.of_nat j)))
                    (seq 1 created))
      /\ (forall j, (1 <= j <= created)%nat ->
            @isValidDate api now
              (inr (format_ymd (first_of_month (k + Z.of_nat j)))) = true)
      /\ ((created < todo)%nat ->
            @isValidDate api now
              (inr (format_ymd
                      (first_of_month (k + Z.of_nat (S created))))) = false)
      /\ _date this'
         = (if (created =? 0)%nat then _date this
            else format_ymd (first_of_month (k + Z.of_nat created)))
      /\ length (managers this') = (length (managers this) + created)%nat.
Proof.
  induction todo as [|todo IH]; intros i this k Hi Hk Hs Hwf.
  - exists this, 0%nat. cbn [_createManagers_from seq map].
    rewrite app_nil_r, Nat.add_0_r.
    repeat split; try reflexivity; lia.
  - cbn [_createManagers_from].
    destruct (i =? 0)%nat eqn:Hi0; [apply Nat.eqb_eq in Hi0; lia|].
    destruct (next_month_of_index this k Hk Hs) as (r & -> & Hr).
    rewrite Hr.
    destruct (@isValidDate api now
                (inr (format_ymd (first_of_month (k + 1))))) eqn:Hv.
    + cbn [negb].
      assert (Hk1 : 12 <= k + 1 < 120000).
      { destruct (Z.eq_dec (k + 1) 120000) as [He|Hne]; [|lia].
        rewrite He, isValidDate_year_10000 in Hv. discriminate. }
      set (d := format_ymd (first_of_month (k + 1))) in *.
      set (this1 := add_manager (_date (set_date d this)) None
                                (set_date d this)).
      assert (Hwf0 : well_formed (set_date d this)) by exact Hwf.
      assert (Hwf1 : well_formed this1)
        by (apply add_manager_well_formed; assumption).
      assert (Hs1 : substring 0 7 (_date this1)
                    = year_month ((k + 1) / 12) ((k + 1) mod 12 + 1)).
      { change (_date this1) with d. unfold d.
        destruct (first_of_month_bounds (k + 1) Hk1) as [Hy Hm].
        apply (substring_format_ymd (first_of_month (k + 1)) Hy Hm). }
      destruct (IH (S i) this1 (k + 1) ltac:(lia) Hk1 Hs1 Hwf1)
        as (this' & created & Hrun & Hle & Hdates & Hvalid & Hstop & Hcur
            & Hlen).
      exists this', (S created). split; [exact Hrun|].
      split; [lia|]. split.
      { rewrite Hdates. unfold this1.
        rewrite (assigned_dates_add_manager _ _ _ Hwf0).
        change (assigned_dates (set_date d this)) with (assigned_dates this).
        rewrite <- app_assoc. f_equal. cbn [seq map app _date set_date].
        f_equal.
        rewrite <- (seq_shift created 1), map_map. apply map_ext. intros j.
        do 2 f_equal. lia. }
      split.
      { intros j Hj. destruct (Nat.eq_dec j 1%nat) as [->|Hne].
        - exact Hv.
        - specialize (Hvalid (j - 1)%nat ltac:(lia)).
          replace (k + Z.of_nat j) with (k + 1 + Z.of_nat (j - 1)) by lia.
          exact Hvalid. }
      split.
      { intros Hlt. specialize (Hstop ltac:(lia)).
        replace (k + Z.of_nat (S (S created)))
          with (k + 1 + Z.of_nat (S created)) by lia.
        exact Hstop. }
      split.
      { rewrite Hcur. change (_date this1) with d.
        destruct (created =? 0)%nat eqn:Hc.
        - apply Nat.eqb_eq in Hc. subst created. reflexivity.
        - cbn [Nat.eqb]. do 2 f_equal. lia. }
      rewrite Hlen. unfold this1.
      rewrite (add_manager_managers uuid_inj _ _ _ Hwf0), length_app.
      cbn [length set_date managers]. lia.
    + cbn [negb]. exists this, 0%nat. cbn [seq map].
      rewrite app_nil_r, Nat.add_0_r.
      repeat split; try reflexivity; try lia.
      intros _. exact Hv.
Qed.

Lemma month_start_index (start : DateTime) (i : nat) :
  1 <= month start <= 12 ->
  @month_start api start i
  = format_ymd
      (first_of_month (12 * year start + month start - 1 + Z.of_nat i)).
Proof.
  intros Hm. unfold month_start. cbn [format_yyyy_MM_dd api].
  rewrite (first_of_month_index _ _ Hm), addMonths_first_of_month.
  reflexivity.
Qed.

(** C7, as amended: the managers that [launch] creates when no checkpoint
    is present.  Let the configured start date be written [yyyy-MM-dd],
    with a year from 0001 to 9999 and a month from 01 to 12, let the
    identifiers drawn never collide, and let [count] be the number of
    rounds of the loop, which runs while [i < Number(managerCount || 1)]:
    [managerCount] itself when it is a positive number, one when it is
    unset or zero, and zero when it is negative.  Then [launch] returns
    and has created at most [count] managers: at least one unless
    [count] is zero, and none when [Number(managerCount || 1)] is
    negative; the first keeps the configured start date itself,
    and the [i]-th ([i >= 1]) has the first day of the month [i] calendar
    months after the month of the start date.  Every month so assigned
    passes the validity check at [now]; when fewer than [count] managers
    are created, the next month is the first that does not pass it.  The
    cursor is the date of the last manager created. *)
Theorem launch_creates_successive_months
    (cfg : SyncerConfig) (start : DateTime) :
  checkpoint_managers cfg = None ->
  cfg_date cfg = format_ymd start ->
  1 <= year start <= 9999 ->
  1 <= month start <= 12 ->
  let count := Z.to_nat (Number_or_1 (cfg_managerCount cfg)) in
  exists this' created,
    @launch api _ now (new_SyncService cfg) = (Normal tt, this')
    /\ (created <= count)%nat
    /\ ((1 <= count)%nat -> (1 <= created)%nat)
    /\ (Number_or_1 (cfg_managerCount cfg) <= 0 -> created = 0%nat)
    /\ assigned_dates this'
       = take created
           (cfg_date cfg
            :: map (@month_start api start) (seq 1 (count - 1)))
    /\ length (managers this') = created
    /\ (forall i, (1 <= i < created)%nat ->
          @isValidDate api now (inr (@month_start api start i)) = true)
    /\ ((1 <= created < count)%nat ->
          @isValidDate api now (inr (@month_start api start created))
          = false)
    /\ _date this'
       = (if (created <=? 1)%nat then cfg_date cfg
          else @month_start api start (created - 1)).
Proof.
  intros Hb Hd Hy Hm count.
  unfold launch, _createManagers. cbn [new_SyncService config].
  rewrite Hb. fold count.
  assert (Hneg : Number_or_1 (cfg_managerCount cfg) <= 0 -> count = 0%nat)
    by (unfold count; lia).
  destruct count as [|todo].
  { exists (new_SyncService cfg), 0%nat. cbn [_createManagers_from].
    repeat split; try reflexivity; lia. }
  cbn [_createManagers_from Nat.eqb].
  set (k := 12 * year start + month start - 1).
  set (this0 := add_manager (_date (new_SyncService cfg)) None
                            (new_SyncService cfg)).
  assert (Hwf : well_formed this0).
  { apply add_manager_well_formed; [exact uuid_inj|].
    apply well_formed_empty. reflexivity. }
  assert (Hk : 12 <= k < 120000) by (unfold k; lia).
  assert (Hs : substring 0 7 (_date this0)
               = year_month (k / 12) (k mod 12 + 1)).
  { change (_date this0) with (cfg_date cfg).
    rewrite Hd, (substring_format_ymd start Hy Hm).
    pose proof (first_of_month_index (year start) (month start) Hm) as Hi.
    fold k in Hi. unfold first_of_month in Hi.
    injection Hi as -> ->. reflexivity. }
  destruct (_createManagers_from_months todo 1%nat this0 k
              ltac:(lia) Hk Hs Hwf)
    as (this' & created & Hrun & Hle & Hdates & Hvalid & Hstop & Hcur
        & Hlen).
  exists this', (S created). split; [exact Hrun|].
  split; [lia|]. split; [lia|]. split; [intros Hn; discriminate (Hneg Hn)|].
  split.
  { rewrite Hdates. unfold this0.
    rewrite (assigned_dates_add_manager _ _ _
               (well_formed_empty (new_SyncService cfg) eq_refl)).
    change (assigned_dates (new_SyncService cfg)) with (@nil string).
    cbn [firstn app _date new_SyncService]. f_equal.
    rewrite Nat.sub_succ, Nat.sub_0_r.
    rewrite firstn_map, take_seq, Nat.min_l by lia.
    apply map_ext. intros j. symmetry. apply (month_start_index start j Hm). }
  split.
  { rewrite Hlen. unfold this0.
    rewrite (add_manager_managers uuid_inj _ _ _
               (well_formed_empty (new_SyncService cfg) eq_refl)).
    reflexivity. }
  split.
  { intros i Hi. rewrite (month_start_index start i Hm). fold k.
    apply Hvalid. lia. }
  split.
  { intros Hc. rewrite (month_start_index start (S created) Hm). fold k.
    apply Hstop. lia. }
  rewrite Hcur. change (_date this0) with (cfg_date cfg).
  destruct created as [|c]; [reflexivity|].
  cbn [Nat.eqb Nat.leb]. rewrite Nat.sub_succ, Nat.sub_0_r.
  rewrite (month_start_index start (S c) Hm). reflexivity.
Qed.

End Creation.

(** ** The join of the managers *)

(** The result of a rejected promise has no value, so the join deletes
    nothing for it. *)
Lemma _launchManagers_rejected (reason : Error) (this : SyncService) :
  _launchManagers [rejected reason] this = this.
Proof. destruct this. reflexivity. Qed.

(** The result of a fulfilled promise removes the manager it names. *)
Lemma _launchManagers_fulfilled (id : string) (this : SyncService) :
  Map_has id (managers (_launchManagers [fulfilled (Some id)] this)) = false.
Proof.
  cbn [_launchManagers foldl settled_value _deleteManager set_managers
       managers Map_delete].
  induction (managers this) as [|[k a] m IH]; [reflexivity|].
  cbn [List.filter fst]. destruct (String.eqb id k) eqn:Hk; cbn [negb].
  - exact IH.
  - cbn [Map_has existsb fst]. rewrite Hk. exact IH.
Qed.

(** ** Sample runs *)

Import Counter.

(** C4, at the failing input: two managers are launched; the run loop of
    the first rejects and the second resolves to its identifier.  After
    the join the second manager is gone from the map and the first, whose
    run failed, is still in it. *)
Theorem rejected_manager_stays_in_map :
  map fst (managers Examples.launched)
  = [ "sales-manager-0"; "sales-manager-1" ]
  /\ map fst (managers
                (_launchManagers
                   [ rejected (TypeError "review failed");
                     fulfilled (Some "sales-manager-1") ]
                   Examples.launched))
     = [ "sales-manager-0" ].
Proof. split; reflexivity. Qed.

Lemma review_never_assigns_future_month_witness :
  _reviewManager 0 Examples.noon_1_march_2023 Examples.launched
  = (Normal true,
     snd (_reviewManager 0 Examples.noon_1_march_2023 Examples.launched))
  /\ exists date parsed,
       _date (snd (_reviewManager 0 Examples.noon_1_march_2023
                     Examples.launched)) = date
       /\ date = "2023-03-01"
       /\ parse_yyyy_MM_dd date = Some parsed
       /\ month_later parsed Examples.noon_1_march_2023 = false.
Proof.
  split; [reflexivity|].
  destruct (review_never_assigns_future_month (H:=api) 0
              Examples.noon_1_march_2023
              Examples.launched _ _
              (surjective_pairing
                 (@_reviewManager api 0 Examples.noon_1_march_2023
                    Examples.launched)))
    as [Hs | (date & parsed & _ & Hd & _ & Hp & Hl)].
  - vm_compute in Hs. discriminate.
  - exists date, parsed. repeat split; try assumption.
    rewrite <- Hd. reflexivity.
Defined.

Lemma review_backfilled_manager_witness :
  store Examples.tailing !! 1%nat
  = Some (mkSyncManager
            (mkManagerConfig "sales-manager-1" "2023-02-01" None 1)
            1677672000 true [])
  /\ exists this' payload,
       _reviewManager 1 Examples.noon_1_march_2023 Examples.tailing
       = (Normal true, this')
       /\ _isBackfilled this' = true
       /\ effects this' = [ BackupService_backup payload ]
       /\ assigned_dates this' = [ "2023-01-15"; "2023-02-01" ]
       /\ _date this' = "2023-02-01".
Proof.
  split; [reflexivity|].
  destruct (review_backfilled_manager (H:=api) 1
              Examples.noon_1_march_2023
              Examples.tailing _ eq_refl eq_refl)
    as (this' & payload & Hr & Hb & He & Hs & _ & Hd & Hm).
  exists this', payload. repeat split; try assumption.
  unfold assigned_dates, managers_values. rewrite Hs, Hm. reflexivity.
Defined.

Lemma review_not_backfilled_manager_witness :
  store Examples.launched !! 0%nat
  = Some (mkSyncManager
            (mkManagerConfig "sales-manager-0" "2023-01-15" None 1) 0 false [])
  /\ (exists this' m',
        _reviewManager 0 Examples.noon_1_march_2023 Examples.launched
        = (Normal true, this')
        /\ store this' !! 0%nat = Some m'
        /\ manager_date m' = "2023-03-01"
        /\ _date this' = "2023-03-01")
  /\ (exists this',
        _reviewManager 0 (mkDateTime 2023 2 28 0) Examples.launched
        = (Normal false, this')
        /\ _date this' = "2023-02-01").
Proof.
  split; [reflexivity|]. split.
  - destruct (review_not_backfilled_manager (H:=api) 0
                Examples.noon_1_march_2023
                Examples.launched _ eq_refl) as [Hn _].
    specialize (Hn eq_refl). vm_compute in Hn.
    destruct Hn as (this' & m' & Hr & Hs & Hm & _ & _ & _ & _ & _ & _ & Hd & _).
    exists this', m'. injection Hr as <-.
    split; [reflexivity|]. split; [exact Hs|]. split; [exact Hm | reflexivity].
  - destruct (review_not_backfilled_manager (H:=api) 0
                (mkDateTime 2023 2 28 0)
                Examples.launched _ eq_refl) as [Hn _].
    specialize (Hn eq_refl). vm_compute in Hn.
    destruct Hn as (this' & Hr & _ & Hd).
    exists this'. injection Hr as <-. split; reflexivity.
Defined.

(** C6, as stated, fails: the cursor of [Samples.adrift] is not a date.
    The review of its manager, which is not backfilled, calls the
    checkpoint service and then returns neither [true] nor [false]: it
    throws a [RangeError]. *)
Lemma review_returns_neither_true_nor_false :
  _date Samples.adrift = "soon"
  /\ (exists m, store Samples.adrift !! 0%nat = Some m
                /\ isBackfilled m = false)
  /\ (exists msg,
        fst (_reviewManager 0 Examples.noon_1_march_2023 Samples.adrift)
        = Throw (RangeError msg))
  /\ fst (_reviewManager 0 Examples.noon_1_march_2023 Samples.adrift)
     <> Normal false
  /\ fst (_reviewManager 0 Examples.noon_1_march_2023 Samples.adrift)
     <> Normal true.
Proof.
  split; [reflexivity|]. split; [eexists; split; reflexivity|].
  split; [eexists; reflexivity|].
  split; vm_compute; discriminate.
Qed.

Lemma launch_twice_witness :
  checkpoint_managers (config (new_SyncService Examples.restored))
  = bd_managers (bk_data Examples.checkpoint)
  /\ (let once :=
        snd (launch Examples.noon_1_march_2023
               (new_SyncService Examples.restored)) in
      let twice := snd (launch Examples.noon_1_march_2023 once) in
      assigned_dates once = [ "2023-01-15"; "2023-02-01" ]
      /\ map assignment (managers_values twice)
         = map assignment (managers_values once)
      /\ _date twice = _date once)
  /\ (let once :=
        snd (launch Examples.noon_1_march_2023
               (new_SyncService Examples.two_units)) in
      let twice := snd (launch Examples.noon_1_march_2023 once) in
      length (managers once) = 2%nat
      /\ (length (managers once) < length (managers twice))%nat).
Proof.
  split; [reflexivity|]. split.
  - destruct (launch_twice Counter_uuid_inj (H0:=api)
                Examples.noon_1_march_2023
                (new_SyncService Examples.restored)) as [Hc _].
    destruct (Hc _ eq_refl) as (_ & _ & Ht & _ & Hd & _).
    split; [reflexivity|]. split; [exact Ht | exact Hd].
  - destruct (launch_twice Counter_uuid_inj (H0:=api)
                Examples.noon_1_march_2023
                (new_SyncService Examples.two_units)) as [_ Hn].
    split; [reflexivity|].
    apply Hn; [reflexivity | vm_compute; discriminate |].
    apply (well_formed_empty (new_SyncService Examples.two_units) eq_refl).
Defined.

(** C3, as stated, fails: with no checkpoint, a second [launch] adds two
    more managers and moves the cursor one month on. *)
Lemma launch_twice_without_checkpoint :
  let once :=
    snd (launch Examples.noon_1_march_2023
           (new_SyncService Examples.two_units)) in
  let twice := snd (launch Examples.noon_1_march_2023 once) in
  (assigned_dates once, _date once)
  = ([ "2023-01-15"; "2023-02-01" ], "2023-02-01")
  /\ (assigned_dates twice, _date twice)
     = ([ "2023-01-15"; "2023-02-01"; "2023-02-01"; "2023-03-01" ],
        "2023-03-01")
  /\ (assigned_dates twice, _date twice) <> (assigned_dates once, _date once).
Proof. repeat split. vm_compute. discriminate. Qed.

Lemma launch_creates_successive_months_witness :
  checkpoint_managers Examples.two_units = None
  /\ cfg_date Examples.two_units = format_ymd (mkDateTime 2023 1 15 0)
  /\ exists this',
       launch Examples.noon_1_march_2023 (new_SyncService Examples.two_units)
       = (Normal tt, this')
       /\ assigned_dates this' = [ "2023-01-15"; "2023-02-01" ]
       /\ _date this' = "2023-02-01".
Proof.
  split; [reflexivity|]. split; [reflexivity|].
  destruct (launch_creates_successive_months Counter_uuid_inj
              Examples.noon_1_march_2023 Examples.two_units
              (mkDateTime 2023 1 15 0) eq_refl eq_refl
              ltac:(cbn; lia) ltac:(cbn; lia))
    as (this' & created & Hl & _).
  exists this'. split; [exact Hl|].
  injection Hl as <-. split; reflexivity.
Defined.

(** C7, as stated, fails.  With a manager count of zero, [launch] creates
    one manager; and with a start date that is not a date and a count of
    two, the creation does not stop at a validity check: the first manager
    keeps the start date as it is and [launch] throws a [RangeError]. *)
Lemma launch_with_count_zero_or_unread_start :
  (cfg_managerCount Examples.zero_units = Some 0
   /\ assigned_dates
        (snd (launch Examples.noon_1_march_2023
                (new_SyncService Examples.zero_units)))
      = [ "2023-01-15" ]
   /\ ~ (Z.of_nat
           (length
              (managers
                 (snd (launch Examples.noon_1_march_2023
                         (new_SyncService Examples.zero_units)))))
         <= 0))
  /\ (cfg_date Samples.unread_start = "soon"
      /\ cfg_managerCount Samples.unread_start = Some 2
      /\ assigned_dates
           (snd (launch Examples.noon_1_march_2023
                   (new_SyncService Samples.unread_start)))
         = [ "soon" ]
      /\ exists msg,
           fst (launch Examples.noon_1_march_2023
                  (new_SyncService Samples.unread_start))
           = Throw (RangeError msg)).
Proof.
  split.
  - split; [reflexivity|]. split; [reflexivity|].
    intros Hle. vm_compute in Hle. apply Hle. reflexivity.
  - split; [reflexivity|]. split; [reflexivity|]. split; [reflexivity|].
    eexists. reflexivity.
Qed.

(** ** Buffers and identifiers *)

Lemma Buffer_from_hex_byte (b : Byte.byte) (rest : string) :
  Buffer_from_hex
    (String (hex_char (N_of_ascii (ascii_of_byte b) / 16))
       (String (hex_char (N_of_ascii (ascii_of_byte b) mod 16)) rest))
  = b :: Buffer_from_hex rest.
Proof. destruct b; reflexivity. Qed.

(** X18: decoding undoes the hexadecimal writing.  [toBuffer] gives back
    every buffer from its hexadecimal form, and [addressToBuffer] gives it
    back from that form after a [0x]. *)
Theorem toBuffer_toHex (buffer : Buffer) :
  toBuffer (toHex buffer) = buffer
  /\ addressToBuffer (Some (String "0" (String "x" (toHex buffer)))) = buffer.
Proof.
  assert (Hb : Buffer_from_hex (toHex buffer) = buffer).
  { induction buffer as [|b buffer IH]; [reflexivity|].
    cbn [toHex]. rewrite Buffer_from_hex_byte, IH. reflexivity. }
  split; exact Hb.
Qed.

Lemma hex_digit_lower (c : ascii) : hex_digit (lower_ascii c) = hex_digit c.
Proof. destruct c as [[] [] [] [] [] [] [] []]; reflexivity. Qed.

Lemma Buffer_from_hex_lower (s : string) :
  Buffer_from_hex (toLowerCase s) = Buffer_from_hex s
  /\ forall c, Buffer_from_hex (toLowerCase (String c s))
               = Buffer_from_hex (String c s).
Proof.
  induction s as [|a s [IH1 IH2]]; [split; reflexivity|].
  split; [apply IH2|]. intros c.
  cbn [toLowerCase Buffer_from_hex]. rewrite !hex_digit_lower.
  destruct (hex_digit c), (hex_digit a); try reflexivity.
  f_equal. exact IH1.
Qed.

Lemma slice_toLowerCase (n : nat) (s : string) :
  slice n (toLowerCase s) = toLowerCase (slice n s).
Proof.
  revert s. induction n as [|n IH]; intros [|c s]; try reflexivity.
  cbn [toLowerCase slice]. apply IH.
Qed.

(** X19: the buffers do not depend on the case of the letters.  A
    hexadecimal string and its lower-case form decode to the same buffer,
    through [toBuffer] and through [addressToBuffer]; so two sales whose
    contracts the allow-list takes for the same have the same
    [contract_id]. *)
Theorem buffers_ignore_case (s : string) (sale1 sale2 : SalesSchema) :
  toBuffer (toLowerCase s) = toBuffer s
  /\ addressToBuffer (Some (toLowerCase s)) = addressToBuffer (Some s)
  /\ (toLowerCase (token_contract (token sale1))
      = toLowerCase (token_contract (token sale2)) ->
      row_contract_id (format_sale sale1)
      = row_contract_id (format_sale sale2)).
Proof.
  assert (Ha : forall x, addressToBuffer (Some (toLowerCase x))
                         = addressToBuffer (Some x)).
  { intros x.
    change (Buffer_from_hex (slice 2 (toLowerCase x))
            = Buffer_from_hex (slice 2 x)).
    rewrite slice_toLowerCase. apply Buffer_from_hex_lower. }
  split; [apply Buffer_from_hex_lower|]. split; [apply Ha|].
  intros He. cbn [format_sale row_contract_id].
  rewrite <- (Ha (token_contract (token sale1))), He. apply Ha.
Qed.

(** *** The identifier of a row *)

Lemma dash_free_app_dash (x y : string) :
  dash_free (x ++ String "-" y) = false.
Proof.
  induction x as [|c x IH]; [reflexivity|].
  change (dash_free (String c (x ++ String "-" y)) = false).
  cbn [dash_free]. rewrite IH. apply andb_false_r.
Qed.

(** A string is cut at its last [-] in one way only. *)
Lemma cut_at_last_dash (s1 s2 d1 d2 : string) :
  dash_free d1 = true -> dash_free d2 = true ->
  s1 ++ String "-" d1 = s2 ++ String "-" d2 ->
  s1 = s2 /\ d1 = d2.
Proof.
  intros H1 H2. revert s2. induction s1 as [|c s1 IH]; intros [|c' s2] He.
  - injection He as ->. split; reflexivity.
  - change (String "-" d1 = String c' (s2 ++ String "-" d2)) in He.
    injection He as _ He. rewrite He, dash_free_app_dash in H1. discriminate.
  - change (String c (s1 ++ String "-" d1) = String "-" d2) in He.
    injection He as _ He. rewrite <- He, dash_free_app_dash in H2. discriminate.
  - change (String c (s1 ++ String "-" d1) = String c' (s2 ++ String "-" d2))
      in He.
    injection He as -> He. destruct (IH s2 He) as [-> ->]. split; reflexivity.
Qed.

Lemma dash_free_uint (d : Decimal.uint) :
  dash_free (NilEmpty.string_of_uint d) = true.
Proof. induction d; cbn [NilEmpty.string_of_uint dash_free]; auto. Qed.

(** The numeral of a number that is not negative has no sign. *)
Lemma dash_free_Z_toString (n : Z) : 0 <= n -> dash_free (Z_toString n) = true.
Proof.
  intros Hn. unfold Z_toString.
  destruct n as [|p|p]; [reflexivity| |lia].
  cbn [Z.to_int NilZero.string_of_int]. unfold NilZero.string_of_uint.
  destruct (Pos.to_uint p) eqn:Hp; try (rewrite <- Hp; apply dash_free_uint).
  reflexivity.
Qed.

Lemma Buffer_from_inj (s1 s2 : string) :
  Buffer_from s1 = Buffer_from s2 -> s1 = s2.
Proof.
  unfold Buffer_from. intros Hb.
  assert (Hl : list_ascii_of_string s1 = list_ascii_of_string s2).
  { revert Hb. generalize (list_ascii_of_string s1), (list_ascii_of_string s2).
    induction l as [|a l IH]; intros [|a' l'] Hb; try discriminate;
      [reflexivity|].
    cbn [map] in Hb. injection Hb as Ha Hb.
    apply (f_equal ascii_of_byte) in Ha. rewrite !ascii_of_byte_of_ascii in Ha.
    subst a'. f_equal. apply IH. exact Hb. }
  rewrite <- (string_of_list_ascii_of_string s1), Hl.
  apply string_of_list_ascii_of_string.
Qed.

(** X20: the identifier of a row names one event.  Two sales whose log
    and batch indices are not negative have the same row identifier only
    if they have the same transaction hash, the same log index and the
    same batch index. *)
Theorem sale_row_id_names_one_event (sale1 sale2 : SalesSchema) :
  0 <= logIndex sale1 -> 0 <= batchIndex sale1 ->
  0 <= logIndex sale2 -> 0 <= batchIndex sale2 ->
  sale_row_id sale1 = sale_row_id sale2 ->
  txHash sale1 = txHash sale2
  /\ logIndex sale1 = logIndex sale2
  /\ batchIndex sale1 = batchIndex sale2.
Proof.
  intros Hl1 Hb1 Hl2 Hb2 Hid. apply Buffer_from_inj in Hid.
  assert (Hshape : forall t l b : string,
             t ++ "-" ++ l ++ "-" ++ b = (t ++ String "-" l) ++ String "-" b).
  { intros t l b. rewrite append_assoc. reflexivity. }
  rewrite !Hshape in Hid.
  apply cut_at_last_dash in Hid as [Hid Hb];
    try (apply dash_free_Z_toString; assumption).
  apply cut_at_last_dash in Hid as [Ht Hl];
    try (apply dash_free_Z_toString; assumption).
  repeat split; [exact Ht | |]; apply Z_toString_inj; assumption.
Qed.

(** ** The cursor moves by one month *)


(** The month after the month of a date, as its first day. *)
Lemma first_of_next_month (y m : Z) :
  1 <= m <= 12 ->
  first_of_month (12 * y + m - 1 + 1) = first_of_following_month y m.
Proof.
  intros Hm. unfold first_of_month, first_of_following_month.
  destruct (m =? 12) eqn:H12.
  - apply Z.eqb_eq in H12. subst m.
    assert ((12 * y + 12 - 1 + 1) / 12 = y + 1) as ->
        by (Z.div_mod_to_equations; lia).
    assert ((12 * y + 12 - 1 + 1) mod 12 = 0) as ->
        by (Z.div_mod_to_equations; lia).
    reflexivity.
  - apply Z.eqb_neq in H12.
    assert ((12 * y + m - 1 + 1) / 12 = y) as ->
        by (Z.div_mod_to_equations; lia).
    assert ((12 * y + m - 1 + 1) mod 12 = m) as ->
        by (Z.div_mod_to_equations; lia).
    reflexivity.
Qed.

(** X21: [incrementDate] as the service calls it.  For a date of the
    years 1 to 9999 written [yyyy-MM-dd], the increment by one month of
    the first day of its month returns the first day of the following
    month, January of the next year after a December, written
    [yyyy-MM-dd], with the milliseconds from 1970 to the local midnight of
    that day. *)
Theorem incrementDate_to_following_month (d : DateTime) :
  1 <= year d <= 9999 ->
  1 <= month d <= 12 ->
  @incrementDate api (inr (substring 0 7 (format_ymd d) ++ "-01")) 0 1 0
  = Normal
      {| inc_date := format_ymd (first_of_following_month (year d) (month d));
         inc_timestamp :=
           localTime (first_of_following_month (year d) (month d)) |}.
Proof.
  intros Hy Hm. rewrite (substring_format_ymd d Hy Hm).
  unfold incrementDate. cbn [parseISO api format format_yyyy_MM_dd].
  destruct (month_checked (year d) (month d) Hy Hm) as (_ & -> & _).
  rewrite (first_of_month_index _ _ Hm).
  unfold add. cbn [Z.eqb Z.mul]. rewrite addMonths_first_of_month.
  rewrite (first_of_next_month _ _ Hm). reflexivity.
Qed.

(** X22: a review moves the cursor by exactly one month, and only to a
    month that has begun.  Let the cursor be a date of the years 1 to 9998
    written [yyyy-MM-dd].  The review of a manager that is not backfilled
    returns [true] exactly when the first day of the month after the
    cursor's is not after the day of [now]; the cursor is then that first
    day, and otherwise it is left as it was. *)
Theorem review_moves_cursor_one_month
    (manager : nat) (now : DateTime) (this : SyncService) (m : SyncManager)
    (d : DateTime) :
  store this !! manager = Some m ->
  isBackfilled m = false ->
  _date this = format_ymd d ->
  1 <= year d <= 9998 ->
  1 <= month d <= 12 ->
  let next := first_of_following_month (year d) (month d) in
  exists this',
    @_reviewManager api manager now this
    = (Normal (negb (day_later next now)), this')
    /\ _date this'
       = (if day_later next now then _date this else format_ymd next).
Proof.
  intros Hs Hb Hd Hy Hm next.
  set (k := 12 * year d + month d - 1).
  assert (Hk : 12 <= k < 120000) by (unfold k; lia).
  assert (Hk1 : 12 <= k + 1 < 120000) by (unfold k; lia).
  assert (Hnext : first_of_month (k + 1) = next)
    by (apply first_of_next_month; exact Hm).
  assert (Hcur : substring 0 7 (_date (_backup this))
                 = year_month (k / 12) (k mod 12 + 1)).
  { change (_date (_backup this)) with (_date this).
    rewrite Hd, (substring_format_ymd d ltac:(lia) Hm).
    pose proof (first_of_month_index (year d) (month d) Hm) as Hi.
    fold k in Hi. unfold first_of_month in Hi. injection Hi as -> ->.
    reflexivity. }
  destruct (next_month_of_index (_backup this) k Hk Hcur) as (r & Hr & Hdate).
  unfold _reviewManager, _continueWork. rewrite Hs, Hb, Hr, Hdate.
  rewrite (isValidDate_first_of_month now (k + 1) Hk1), Hnext.
  assert (Hv : isPast now next || isEqual next (startOfDay now)
               = negb (day_later next now)).
  { unfold isPast, before, isEqual, startOfDay, day_later.
    cbn [year month day millis].
    assert (millis next = 0) as ->
        by (unfold next, first_of_following_month; destruct (month d =? 12);
            reflexivity).
    destruct (millis now <? 0) eqn:Hneg; lia. }
  rewrite Hv. destruct (day_later next now); cbn [negb].
  - eexists. split; reflexivity.
  - eexists. split; reflexivity.
Qed.

(** ** Sample runs of the further properties *)


Lemma isValidDate_stays_valid_witness :
  isValidDate Examples.noon_1_march_2023 (inr "2023-03-01") = true
  /\ before (mkDateTime 2023 3 2 0) Examples.noon_1_march_2023 = false
  /\ isValidDate (mkDateTime 2023 3 2 0) (inr "2023-03-01") = true.
Proof.
  split; [reflexivity|]. split; [reflexivity|].
  exact (isValidDate_stays_valid (H:=api) Examples.noon_1_march_2023
           (mkDateTime 2023 3 2 0) (inr "2023-03-01") eq_refl eq_refl).
Defined.

Lemma review_with_unread_cursor_witness :
  _date Samples.adrift = "soon"
  /\ parseISO (substring 0 7 (_date Samples.adrift) ++ "-01") = None
  /\ exists this' payload,
       _reviewManager 0 Examples.noon_1_march_2023 Samples.adrift
       = (Throw (RangeError "Invalid time value"), this')
       /\ effects this' = [ BackupService_backup payload ]
       /\ _date this' = "soon".
Proof.
  split; [reflexivity|]. split; [reflexivity|].
  destruct (review_with_unread_cursor (H:=api) 0 Examples.noon_1_march_2023
              Samples.adrift _ eq_refl eq_refl eq_refl)
    as (this' & payload & Hr & He & _ & Hd & _).
  exists this', payload. split; [exact Hr|]. split; [exact He | exact Hd].
Defined.

Lemma review_checkpoints_the_state_before_witness :
  _date (snd (_reviewManager 0 Examples.noon_1_march_2023 Examples.launched))
  = "2023-03-01"
  /\ exists payload,
       effects (snd (_reviewManager 0 Examples.noon_1_march_2023
                       Examples.launched))
       = [ BackupService_backup payload ]
       /\ bd_date (bk_data payload) = "2023-02-01".
Proof.
  split; [reflexivity|].
  destruct (review_checkpoints_the_state_before (H:=api) 0
              Examples.noon_1_march_2023 Examples.launched _ eq_refl)
    as (payload & He & _ & Hd & _).
  exists payload. split; [exact He | exact Hd].
Defined.

Lemma isBackfilled_is_never_revoked_witness :
  _isBackfilled Samples.promoted = true
  /\ _isBackfilled
       (snd (_reviewManager 0 Examples.noon_1_march_2023 Samples.promoted))
     = true
  /\ _isBackfilled (snd (launch Examples.noon_1_march_2023 Samples.promoted))
     = true.
Proof.
  split; [reflexivity|].
  destruct (isBackfilled_is_never_revoked (H:=api) (H0:=uuidv4)
              Examples.noon_1_march_2023 Samples.promoted 0 []
              Examples.empty_page eq_refl)
    as (Hr & Hl & _).
  split; [exact Hr | exact Hl].
Defined.

Lemma launch_with_unread_start_date_witness :
  checkpoint_managers Samples.unread_start = None
  /\ parseISO (substring 0 7 (cfg_date Samples.unread_start) ++ "-01") = None
  /\ exists this',
       launch Examples.noon_1_march_2023 (new_SyncService Samples.unread_start)
       = (Throw (RangeError "Invalid time value"), this')
       /\ assigned_dates this' = [ "soon" ].
Proof.
  split; [reflexivity|]. split; [reflexivity|].
  destruct (launch_with_unread_start_date (H:=api) (H0:=uuidv4)
              Examples.noon_1_march_2023 Samples.unread_start
              eq_refl eq_refl)
    as (this' & Ha & _ & _ & Ht).
  exists this'. split; [apply Ht; cbn; lia | exact Ha].
Defined.

Lemma launch_with_empty_checkpoint_witness :
  checkpoint_managers Samples.empty_checkpoint = Some []
  /\ cfg_managerCount Samples.empty_checkpoint = Some 3
  /\ exists this',
       launch Examples.noon_1_march_2023
         (new_SyncService Samples.empty_checkpoint)
       = (Normal tt, this')
       /\ managers this' = [].
Proof.
  split; [reflexivity|]. split; [reflexivity|].
  destruct (launch_with_empty_checkpoint (H:=api) (H0:=uuidv4)
              Examples.noon_1_march_2023 Samples.empty_checkpoint eq_refl)
    as (this' & Hl & Hm & _).
  exists this'. split; [exact Hl | exact Hm].
Defined.


Lemma insert_deletes_only_what_it_upserted_witness :
  exists upserted deleted,
    effects (snd (_insert Examples.mixed_page
                    (new_SyncService Examples.two_units)))
    = [ InsertionService_upsert "sales" upserted;
        InsertionService_delete "sales" deleted ]
    /\ (length deleted <= length upserted)%nat.
Proof.
  destruct (insert_deletes_only_what_it_upserted Examples.mixed_page
              (new_SyncService Examples.two_units)
              [ Examples.sale false; Examples.sale true ] eq_refl eq_refl)
    as (upserted & deleted & He & _ & Hl & _).
  exists upserted, deleted. split; [exact He | exact Hl].
Defined.

Lemma parse_keeps_the_allowed_contracts_witness :
  cfg_type (config (new_SyncService Examples.one_unit_one_contract)) = "sales"
  /\ exists kept,
       _parse (Some [ Examples.sale false ])
              (new_SyncService Examples.one_unit_one_contract)
       = Normal (map format_sale kept)
       /\ In (Examples.sale false) kept.
Proof.
  split; [reflexivity|].
  destruct (parse_keeps_the_allowed_contracts
              (new_SyncService Examples.one_unit_one_contract)
              [ Examples.sale false ] eq_refl)
    as (kept & Hp & Hk).
  exists kept. split; [exact Hp|]. apply Hk. split; [left; reflexivity|].
  right. eexists. split; [left; reflexivity | reflexivity].
Defined.

Lemma count_bounds_the_parsed_rows_witness :
  _count Examples.mixed_page (new_SyncService Examples.two_units) = Normal 2
  /\ exists e,
       _count Examples.empty_page (new_SyncService Examples.two_units)
       = Throw e.
Proof.
  pose proof (count_bounds_the_parsed_rows Examples.mixed_page
                (new_SyncService Examples.two_units) eq_refl) as Hm.
  pose proof (count_bounds_the_parsed_rows Examples.empty_page
                (new_SyncService Examples.two_units) eq_refl) as He.
  split; [exact (proj1 Hm) | exact He].
Defined.

Lemma unsupported_type_throws_witness :
  cfg_type (config (new_SyncService Samples.asks)) = "asks"
  /\ inherited "asks" = false
  /\ (exists msg,
        _insert Examples.mixed_page (new_SyncService Samples.asks)
        = (Throw (TypeError msg), new_SyncService Samples.asks))
  /\ (exists msg,
        _request Samples.always_ok Samples.first_page
                 (new_SyncService Samples.asks) = Throw (TypeError msg)).
Proof.
  split; [reflexivity|]. split; [reflexivity|].
  destruct (unsupported_type_throws (new_SyncService Samples.asks) None
              Examples.mixed_page Samples.always_ok Samples.first_page
              ltac:(discriminate) eq_refl)
    as (_ & Hi & Hr).
  split; [exact Hi | exact Hr].
Defined.

Lemma request_asks_one_url_witness :
  cfg_type (config (new_SyncService Samples.unknown_chain)) = "sales"
  /\ inherited (cfg_chain (config (new_SyncService Samples.unknown_chain)))
     = false
  /\ _request Samples.always_ok Samples.first_page
              (new_SyncService Samples.unknown_chain)
     = Normal
         (answer
            (Samples.always_ok
               "undefined/sales/v4?orderBy=updated_at&sortDirection=asc&includeDeleted=true&limit=1000&startTimestamp=1672531200&endTimestamp=1675209600"
               "demo-key")).
Proof.
  split; [reflexivity|]. split; [reflexivity|].
  exact (request_asks_one_url Samples.always_ok Samples.first_page
           (new_SyncService Samples.unknown_chain) eq_refl eq_refl).
Defined.

Lemma sale_row_id_names_one_event_witness :
  sale_row_id (Examples.sale false) = sale_row_id (Examples.sale true)
  /\ txHash (Examples.sale false) = txHash (Examples.sale true)
  /\ logIndex (Examples.sale false) = logIndex (Examples.sale true)
  /\ batchIndex (Examples.sale false) = batchIndex (Examples.sale true).
Proof.
  split; [reflexivity|].
  apply (sale_row_id_names_one_event (Examples.sale false)
           (Examples.sale true));
    first [ reflexivity | cbn; lia ].
Defined.

Lemma incrementDate_to_following_month_witness :
  substring 0 7 (format_ymd (mkDateTime 2023 12 25 0)) ++ "-01" = "2023-12-01"
  /\ incrementDate (inr "2023-12-01") 0 1 0
     = Normal {| inc_date := "2024-01-01"; inc_timestamp := 1704067200000 |}.
Proof.
  split; [reflexivity|].
  exact (incrementDate_to_following_month (mkDateTime 2023 12 25 0)
           ltac:(cbn; lia) ltac:(cbn; lia)).
Defined.

Lemma review_moves_cursor_one_month_witness :
  _date Examples.launched = format_ymd (mkDateTime 2023 2 1 0)
  /\ (exists this',
        _reviewManager 0 Examples.noon_1_march_2023 Examples.launched
        = (Normal true, this')
        /\ _date this' = "2023-03-01")
  /\ (exists this',
        _reviewManager 0 (mkDateTime 2023 2 28 0) Examples.launched
        = (Normal false, this')
        /\ _date this' = "2023-02-01").
Proof.
  split; [reflexivity|]. split.
  - exact (review_moves_cursor_one_month 0 Examples.noon_1_march_2023
             Examples.launched _ (mkDateTime 2023 2 1 0)
             eq_refl eq_refl eq_refl ltac:(cbn; lia) ltac:(cbn; lia)).
  - exact (review_moves_cursor_one_month 0 (mkDateTime 2023 2 28 0)
             Examples.launched _ (mkDateTime 2023 2 1 0)
             eq_refl eq_refl eq_refl ltac:(cbn; lia) ltac:(cbn; lia)).
Defined.

Lemma map_stays_keyed_by_id_witness :
  well_formed (new_SyncService Examples.two_units)
  /\ keyed_by_id (new_SyncService Examples.two_units)
  /\ keyed_by_id
       (snd (launch Examples.noon_1_march_2023
               (new_SyncService Examples.two_units)))
  /\ map fst
       (managers
          (snd (launch Examples.noon_1_march_2023
                  (new_SyncService Examples.two_units))))
     = [ "sales-manager-0"; "sales-manager-1" ].
Proof.
  assert (Hwf : well_formed (new_SyncService Examples.two_units))
    by (apply well_formed_empty; reflexivity).
  assert (Hk : keyed_by_id (new_SyncService Examples.two_units))
    by (apply keyed_by_id_empty; reflexivity).
  split; [exact Hwf|]. split; [exact Hk|].
  destruct (map_stays_keyed_by_id Counter_uuid_inj (H0:=api)
              Examples.noon_1_march_2023
              (new_SyncService Examples.two_units) 0 [] Hwf Hk)
    as ((_ & Hl) & _).
  split; [exact Hl | reflexivity].
Defined.
